(** * Lights HAL of the msm8998-common device tree (light/Lights.cpp)

    A shallow embedding of the light service: the colour-to-brightness
    translation, the blink program written for the white LED, and the
    priority arbitration of [Lights::setLightState] over the [backends]
    table, followed by the properties proved about them. *)

From Stdlib Require Import ZArith List String Ascii Bool Lia.
From Stdlib Require Import DecimalString DecimalPos DecimalZ.
From Stdlib Require Import Sorted.
Import ListNotations.
Local Open Scope string_scope.
Local Open Scope list_scope.
Local Open Scope Z_scope.

(** ** Machine integers

    [uint32_t] and [int32_t] values are integers of [Z]; every operation
    whose C++ result type is 32 bits wide is reduced explicitly. *)

Definition wrap_u32 (z : Z) : Z := z mod 2 ^ 32.

Definition wrap_i32 (z : Z) : Z := (z + 2 ^ 31) mod 2 ^ 32 - 2 ^ 31.

Definition add_u32 (a b : Z) : Z := wrap_u32 (a + b).
Definition mul_u32 (a b : Z) : Z := wrap_u32 (a * b).

(** Signed arithmetic of [int32_t]. Overflow is undefined in C++; the model
    wraps, and the statements below say where the result is exact. *)
Definition sub_i32 (a b : Z) : Z := wrap_i32 (a - b).
Definition mul_i32 (a b : Z) : Z := wrap_i32 (a * b).
(** Signed division truncates toward zero. *)
Definition div_i32 (a b : Z) : Z := wrap_i32 (Z.quot a b).

(** [std::to_string] on an integer: decimal digits, a leading minus sign for
    negative values. *)
Definition to_string (z : Z) : string := NilZero.string_of_int (Z.to_int z).

(** ** Types of the HAL interface

    [LightType], [FlashMode], [BrightnessMode], [HwLightState] and [HwLight]
    are declared by the light HAL interface, outside this source file. The
    table below uses five enumerators of [LightType]; any other value the
    enumeration's underlying type can hold is [OtherType]. *)

Inductive LightType : Type :=
| ATTENTION
| NOTIFICATIONS
| BATTERY
| BACKLIGHT
| BUTTONS
| OtherType (raw : Z).

Inductive FlashMode : Type := NONE | TIMED | HARDWARE.

Inductive BrightnessMode : Type := USER | SENSOR | LOW_PERSISTENCE.

Record HwLightState : Type := mkHwLightState {
  color : Z;                      (* int32_t, AARRGGBB *)
  flashMode : FlashMode;
  flashOnMs : Z;                  (* int32_t *)
  flashOffMs : Z;                 (* int32_t *)
  brightnessMode : BrightnessMode
}.

Module HwLight.
Record t : Type := mk { id : Z; type : LightType; ordinal : Z }.
End HwLight.

Inductive ExceptionCode : Type := EX_UNSUPPORTED_OPERATION.

Inductive ScopedAStatus : Type :=
| ok
| fromExceptionCode (code : ExceptionCode).

Definition LightType_eqb (a b : LightType) : bool :=
  match a, b with
  | ATTENTION, ATTENTION => true
  | NOTIFICATIONS, NOTIFICATIONS => true
  | BATTERY, BATTERY => true
  | BACKLIGHT, BACKLIGHT => true
  | BUTTONS, BUTTONS => true
  | OtherType x, OtherType y => Z.eqb x y
  | _, _ => false
  end.

Definition FlashMode_eqb (a b : FlashMode) : bool :=
  match a, b with
  | NONE, NONE | TIMED, TIMED | HARDWARE, HARDWARE => true
  | _, _ => false
  end.

(** ** Attribute paths and constants *)

Definition LEDS : string := "/sys/class/leds/".

Definition BUTTON1_LED : string := LEDS ++ "button-backlight1/".
Definition BUTTON_LED : string := LEDS ++ "button-backlight/".
Definition LCD_LED : string := LEDS ++ "lcd-backlight/".
Definition WHITE_LED : string := LEDS ++ "white/".

Definition BLINK : string := "blink".
Definition BRIGHTNESS : string := "brightness".
Definition DUTY_PCTS : string := "duty_pcts".
Definition PAUSE_HI : string := "pause_hi".
Definition PAUSE_LO : string := "pause_lo".
Definition RAMP_STEP_MS : string := "ramp_step_ms".
Definition START_IDX : string := "start_idx".

Definition MAX_LED_BRIGHTNESS : Z := 255.
Definition MAX_LCD_BRIGHTNESS : Z := 4095.

Definition RAMP_STEPS : Z := 8.
Definition RAMP_STEP_DURATION : Z := 50.
Definition BRIGHTNESS_RAMP : list Z := [0; 12; 25; 37; 50; 72; 85; 100].

(** ** Effects

    A handler is a function pointer; the table compares handlers by
    identity, so a pointer is the name of the function it points to. What
    the service does to the outside is a sequence of events: a handler
    being called on a state, and [set] being called on a path with a value
    (the file is opened and the value written; when the file cannot be
    opened the call only logs, which the caller cannot observe). *)

Inductive LightStateHandler : Type :=
| fn_handleBacklight
| fn_handleButtons
| fn_handleNotification.

Definition LightStateHandler_eqb (a b : LightStateHandler) : bool :=
  match a, b with
  | fn_handleBacklight, fn_handleBacklight => true
  | fn_handleButtons, fn_handleButtons => true
  | fn_handleNotification, fn_handleNotification => true
  | _, _ => false
  end.

Inductive event : Type :=
| Call (handler : LightStateHandler) (state : HwLightState)
| Write (path value : string).

Definition io : Type := list event.

Notation "c1 ;; c2" := (c1 ++ c2 : io)
  (at level 61, right associativity, only parsing).

(** [set(std::string path, std::string value)] *)
Definition set (path value : string) : io := [Write path value].

(** [set(std::string path, int value)]; an unsigned argument is converted
    to [int] at the call. *)
Definition set_int (path : string) (value : Z) : io :=
  set path (to_string (wrap_i32 value)).

(** ** Colour to brightness *)

Definition getBrightness (state : HwLightState) : Z :=
  let alpha := Z.land (Z.shiftr (color state) 24) 0xFF in
  let red := Z.land (Z.shiftr (color state) 16) 0xFF in
  let green := Z.land (Z.shiftr (color state) 8) 0xFF in
  let blue := Z.land (color state) 0xFF in
  let '(red, green, blue) :=
    if negb (alpha =? 0xFF) then
      (mul_u32 red alpha / 0xFF, mul_u32 green alpha / 0xFF,
       mul_u32 blue alpha / 0xFF)
    else (red, green, blue) in
  Z.shiftr
    (add_u32 (add_u32 (mul_u32 77 red) (mul_u32 150 green)) (mul_u32 29 blue))
    8.

Definition scaleBrightness (brightness maxBrightness : Z) : Z :=
  mul_u32 brightness maxBrightness / 0xFF.

Definition getScaledBrightness (state : HwLightState) (maxBrightness : Z) : Z :=
  scaleBrightness (getBrightness state) maxBrightness.

(** ** Handlers *)

Definition handleBacklight (state : HwLightState) : io :=
  let brightness := getScaledBrightness state MAX_LCD_BRIGHTNESS in
  set_int (LCD_LED ++ BRIGHTNESS) brightness.

Definition handleButtons (state : HwLightState) : io :=
  let brightness := getScaledBrightness state MAX_LED_BRIGHTNESS in
  set_int (BUTTON_LED ++ BRIGHTNESS) brightness ;;
  set_int (BUTTON1_LED ++ BRIGHTNESS) brightness.

(** The loop of [getScaledRamp] carries [ramp] and [pad]; [step] is an
    [int32_t] multiplied by a [uint32_t], so the product is unsigned. *)
Definition getScaledRamp_body (brightness : Z) (acc : string * string)
  (step : Z) : string * string :=
  let '(ramp, pad) := acc in
  let value := to_string (mul_u32 (wrap_u32 step) brightness / 0xFF) in
  ((ramp ++ (pad ++ value))%string, ",").

Definition getScaledRamp (brightness : Z) : string :=
  fst (fold_left (getScaledRamp_body brightness) BRIGHTNESS_RAMP ("", "")).

Definition handleNotification (state : HwLightState) : io :=
  let whiteBrightness := getScaledBrightness state MAX_LED_BRIGHTNESS in
  (* Disable blinking *)
  set_int (WHITE_LED ++ BLINK) 0 ;;
  if FlashMode_eqb (flashMode state) TIMED then
    let stepDuration := RAMP_STEP_DURATION in
    let pauseHi :=
      sub_i32 (flashOnMs state) (mul_i32 (mul_i32 stepDuration RAMP_STEPS) 2) in
    let pauseLo := flashOffMs state in
    let '(stepDuration, pauseHi) :=
      if pauseHi <? 0
      then (div_i32 (flashOnMs state) (mul_i32 RAMP_STEPS 2), 0)
      else (stepDuration, pauseHi) in
    (* White *)
    set_int (WHITE_LED ++ START_IDX) (mul_i32 0 RAMP_STEPS) ;;
    set (WHITE_LED ++ DUTY_PCTS) (getScaledRamp whiteBrightness) ;;
    set_int (WHITE_LED ++ PAUSE_LO) pauseLo ;;
    set_int (WHITE_LED ++ PAUSE_HI) pauseHi ;;
    set_int (WHITE_LED ++ RAMP_STEP_MS) stepDuration ;;
    (* Enable blinking *)
    set_int (WHITE_LED ++ BLINK) 1
  else
    set_int (WHITE_LED ++ BRIGHTNESS) whiteBrightness.

Definition isLit (state : HwLightState) : bool :=
  negb (Z.land (color state) 0x00ffffff =? 0).

(** ** The table of backends *)

Module LightBackend.
Record t : Type := mk {
  type : LightType;
  state : HwLightState;
  handler : LightStateHandler
}.
End LightBackend.

Abbreviation LightBackend := LightBackend.t.

(** The table, most important first. Every entry is built by the same
    two-argument constructor of [LightBackend], declared in Lights.h, which
    leaves the stored state at the value [init]. *)
Definition backends (init : HwLightState) : list LightBackend :=
  [ LightBackend.mk ATTENTION init fn_handleNotification;
    LightBackend.mk NOTIFICATIONS init fn_handleNotification;
    LightBackend.mk BATTERY init fn_handleNotification;
    LightBackend.mk BACKLIGHT init fn_handleBacklight;
    LightBackend.mk BUTTONS init fn_handleButtons ].

(** Calling through a handler pointer. *)
Definition run (handler : LightStateHandler) (state : HwLightState) : io :=
  match handler with
  | fn_handleBacklight => handleBacklight state
  | fn_handleButtons => handleButtons state
  | fn_handleNotification => handleNotification state
  end.

Definition call (handler : LightStateHandler) (state : HwLightState) : io :=
  Call handler state :: run handler state.

(** ** The service *)

Section Service.

(** [static_cast<LightType>(id)] and [(int) type]: the numbering of the
    enumeration belongs to the interface header. *)
Variable LightType_of_int : Z -> LightType.
Variable int_of_LightType : LightType -> Z.

(** First loop of [setLightState]: store [state] in every entry of the
    requested type and remember the handler of the last one. *)
Fixpoint update_backends (type : LightType) (state : HwLightState)
  (handler : option LightStateHandler) (bs : list LightBackend)
  : list LightBackend * option LightStateHandler :=
  match bs with
  | [] => ([], handler)
  | backend :: rest =>
      if LightType_eqb (LightBackend.type backend) type then
        let backend' :=
          LightBackend.mk (LightBackend.type backend) state
            (LightBackend.handler backend) in
        let '(rest', handler') :=
          update_backends type state (Some (LightBackend.handler backend))
            rest in
        (backend' :: rest', handler')
      else
        let '(rest', handler') := update_backends type state handler rest in
        (backend :: rest', handler')
  end.

(** Second loop: the first entry with the same handler and a lit state
    is rendered; [None] when the loop ends with [handled] still false. *)
Fixpoint light_up (handler : LightStateHandler) (bs : list LightBackend)
  : option io :=
  match bs with
  | [] => None
  | backend :: rest =>
      if LightStateHandler_eqb handler (LightBackend.handler backend)
         && isLit (LightBackend.state backend)
      then Some (call handler (LightBackend.state backend))
      else light_up handler rest
  end.

Definition setLightState (id : Z) (state : HwLightState)
  (bs : list LightBackend) : ScopedAStatus * list LightBackend * io :=
  let type := LightType_of_int id in
  let '(bs', handler) := update_backends type state None bs in
  match handler with
  | None => (fromExceptionCode EX_UNSUPPORTED_OPERATION, bs', [])
  | Some handler =>
      match light_up handler bs' with
      | Some trace => (ok, bs', trace)
      | None => (ok, bs', call handler state)
      end
  end.

(** [getLights] appends one [HwLight] per entry to the caller's vector. *)
Fixpoint getLights_loop (bs : list LightBackend) (i : Z)
  (lights : list HwLight.t) : list HwLight.t :=
  match bs with
  | [] => lights
  | backend :: rest =>
      let hwLight :=
        HwLight.mk (int_of_LightType (LightBackend.type backend))
          (LightBackend.type backend) i in
      getLights_loop rest (wrap_i32 (i + 1)) (lights ++ [hwLight])
  end.

Definition getLights (lights : list HwLight.t) (bs : list LightBackend)
  : ScopedAStatus * list HwLight.t :=
  (ok, getLights_loop bs 0 lights).

(** The table after a history of [setLightState] calls, and everything
    those calls did. *)
Fixpoint replay (calls : list (Z * HwLightState)) (bs : list LightBackend)
  : list LightBackend * io :=
  match calls with
  | [] => (bs, [])
  | (id, state) :: rest =>
      let '(_, bs', trace) := setLightState id state bs in
      let '(bs'', trace') := replay rest bs' in
      (bs'', trace ++ trace')
  end.

End Service.

(** ** Vocabulary of the statements *)

(** Values a 32-bit signed field can hold. *)
Definition int32 (z : Z) : Prop := - 2 ^ 31 <= z < 2 ^ 31.

(** A packed colour 0xAARRGGBB as the interface stores it, in an [int32_t]. *)
Definition argb_state (argb : Z) (mode : FlashMode) (onMs offMs : Z)
  (bmode : BrightnessMode) : HwLightState :=
  mkHwLightState (wrap_i32 argb) mode onMs offMs bmode.

Definition pack_argb (alpha rgb : Z) : Z := alpha * 2 ^ 24 + rgb.

(** The brightness translation in the words of the specification: extract
    the four components, dim each colour channel by alpha unless alpha is
    0xFF, take the luma with weights 77, 150, 29 over 256, scale into the
    target range; every division truncates. *)
Definition spec_dim (alpha channel : Z) : Z :=
  if alpha =? 255 then channel else channel * alpha / 255.

Definition spec_luma (argb : Z) : Z :=
  let alpha := (argb / 2 ^ 24) mod 256 in
  let red := (argb / 2 ^ 16) mod 256 in
  let green := (argb / 2 ^ 8) mod 256 in
  let blue := argb mod 256 in
  (77 * spec_dim alpha red + 150 * spec_dim alpha green
   + 29 * spec_dim alpha blue) / 256.

Definition spec_scaled_brightness (argb maxBrightness : Z) : Z :=
  spec_luma argb * maxBrightness / 255.

(** The blink timing in the words of the specification, on unbounded
    integers: (stepDuration, pauseHi). *)
Definition spec_blink_timing (flashOnMs : Z) : Z * Z :=
  let pauseHi := flashOnMs - 50 * 8 * 2 in
  if pauseHi <? 0 then (Z.quot flashOnMs 16, 0) else (50, pauseHi).

(** The duty-cycle ramp in the words of the specification. *)
Definition spec_ramp (b : Z) : list Z :=
  map (fun pct => pct * b / 255) [0; 12; 25; 37; 50; 72; 85; 100].

(** Observations on a trace. *)
Definition handler_calls (trace : io)
  : list (LightStateHandler * HwLightState) :=
  flat_map (fun e => match e with
                     | Call h s => [(h, s)]
                     | Write _ _ => []
                     end) trace.

Definition writes (trace : io) : list (string * string) :=
  flat_map (fun e => match e with
                     | Call _ _ => []
                     | Write p v => [(p, v)]
                     end) trace.

Definition written (path : string) (trace : io) : list string :=
  map snd (filter (fun pv => String.eqb (fst pv) path) (writes trace)).

(** Splitting a string at commas. *)
Fixpoint fields_from (current : string) (s : string) : list string :=
  match s with
  | EmptyString => [current]
  | String c rest =>
      if Ascii.eqb c ","%char
      then current :: fields_from EmptyString rest
      else fields_from (current ++ String c EmptyString) rest
  end.

Definition fields (s : string) : list string := fields_from EmptyString s.

(** The classes of the table and the shape every reachable table has. *)
Definition supported : list LightType :=
  [ATTENTION; NOTIFICATIONS; BATTERY; BACKLIGHT; BUTTONS].

Definition signature (bs : list LightBackend)
  : list (LightType * LightStateHandler) :=
  map (fun b => (LightBackend.type b, LightBackend.handler b)) bs.

Definition well_formed (bs : list LightBackend) : Prop :=
  signature bs =
  [ (ATTENTION, fn_handleNotification);
    (NOTIFICATIONS, fn_handleNotification);
    (BATTERY, fn_handleNotification);
    (BACKLIGHT, fn_handleBacklight);
    (BUTTONS, fn_handleButtons) ].

(** What the first loop of [setLightState] does to one entry. *)
Definition store (type : LightType) (state : HwLightState) (b : LightBackend)
  : LightBackend :=
  if LightType_eqb (LightBackend.type b) type
  then LightBackend.mk (LightBackend.type b) state (LightBackend.handler b)
  else b.

(** The entry the arbitration prefers: first in table order among the
    entries of this handler whose state is lit. *)
Definition competes (handler : LightStateHandler) (b : LightBackend) : bool :=
  LightStateHandler_eqb handler (LightBackend.handler b)
  && isLit (LightBackend.state b).

Definition first_lit (handler : LightStateHandler) (bs : list LightBackend)
  : option LightBackend :=
  find (competes handler) bs.

Definition stored (type : LightType) (bs : list LightBackend)
  : option HwLightState :=
  option_map LightBackend.state
    (find (fun b => LightType_eqb (LightBackend.type b) type) bs).

Definition status_of (r : ScopedAStatus * list LightBackend * io)
  : ScopedAStatus := fst (fst r).
Definition table_of (r : ScopedAStatus * list LightBackend * io)
  : list LightBackend := snd (fst r).
Definition trace_of (r : ScopedAStatus * list LightBackend * io) : io :=
  snd r.

(** The numbering of the light HAL interface on the five types of the
    table, to run the service on concrete calls. No statement depends on
    it: each holds for every numbering. *)
Definition hal_LightType_of_int (id : Z) : LightType :=
  match id with
  | 0 => BACKLIGHT
  | 2 => BUTTONS
  | 3 => BATTERY
  | 4 => NOTIFICATIONS
  | 5 => ATTENTION
  | n => OtherType n
  end.

Definition hal_int_of_LightType (type : LightType) : Z :=
  match type with
  | BACKLIGHT => 0
  | BUTTONS => 2
  | BATTERY => 3
  | NOTIFICATIONS => 4
  | ATTENTION => 5
  | OtherType n => n
  end.

(** Some states for concrete runs. *)
Definition solid (argb : Z) : HwLightState :=
  argb_state argb NONE 0 0 USER.

Definition blinking (argb onMs offMs : Z) : HwLightState :=
  argb_state argb TIMED onMs offMs USER.

Definition dark : HwLightState := solid 0xFF000000.

(** Reading a decimal field back as an integer. *)
Definition parse_int (s : string) : option Z :=
  option_map Z.of_int (NilZero.int_of_string s).

Fixpoint comma_free (s : string) : bool :=
  match s with
  | EmptyString => true
  | String c rest => negb (Ascii.eqb c ","%char) && comma_free rest
  end.

Definition paths (trace : io) : list string := map fst (writes trace).

(** The attributes that carry the blink program. *)
Definition program_attributes : list string :=
  [ WHITE_LED ++ START_IDX; WHITE_LED ++ DUTY_PCTS; WHITE_LED ++ PAUSE_LO;
    WHITE_LED ++ PAUSE_HI; WHITE_LED ++ RAMP_STEP_MS ]%string.

(** The handler the table assigns to a class, if the table has it. *)
Definition class_handler (type : LightType) : option LightStateHandler :=
  option_map LightBackend.handler
    (find (fun b => LightType_eqb (LightBackend.type b) type)
       (backends (mkHwLightState 0 NONE 0 0 USER))).

(** A colour given by its four components. *)
Definition pack_channels (alpha red green blue : Z) : Z :=
  pack_argb alpha (red * 2 ^ 16 + green * 2 ^ 8 + blue).

Definition byte (z : Z) : Prop := 0 <= z <= 255.

(** The attributes a handler may write. *)
Definition handler_attributes (handler : LightStateHandler) : list string :=
  match handler with
  | fn_handleBacklight => [LCD_LED ++ BRIGHTNESS]
  | fn_handleButtons => [BUTTON_LED ++ BRIGHTNESS; BUTTON1_LED ++ BRIGHTNESS]
  | fn_handleNotification =>
      [ WHITE_LED ++ BLINK; WHITE_LED ++ BRIGHTNESS; WHITE_LED ++ START_IDX;
        WHITE_LED ++ DUTY_PCTS; WHITE_LED ++ PAUSE_LO; WHITE_LED ++ PAUSE_HI;
        WHITE_LED ++ RAMP_STEP_MS ]
  end%string.

Definition supportedb (type : LightType) : bool :=
  existsb (LightType_eqb type) supported.

(** The state most recently requested for a class in a history of calls. *)
Fixpoint last_request (cast : Z -> LightType) (type : LightType)
  (calls : list (Z * HwLightState)) : option HwLightState :=
  match calls with
  | [] => None
  | (id, state) :: rest =>
      match last_request cast type rest with
      | Some later => Some later
      | None => if LightType_eqb (cast id) type then Some state else None
      end
  end.

(** What [set] does to the files: [std::ofstream file(path)] either opens
    the file, which then holds exactly [value] once the stream is closed,
    or fails, in which case one warning is logged and the file is left
    alone. Which paths can be opened is up to the environment. *)
Record files : Type := mkFiles {
  content : string -> string;
  warnings : list string
}.

Definition set_file (openable : string -> bool) (path value : string)
  (fs : files) : files :=
  if openable path
  then mkFiles (fun p => if String.eqb p path then value else content fs p)
         (warnings fs)
  else mkFiles (content fs)
         (warnings fs
          ++ [("failed to write " ++ value ++ " to " ++ path)%string]).

Definition perform (openable : string -> bool) (trace : io) (fs : files)
  : files :=
  fold_left (fun fs e => match e with
                         | Write path value => set_file openable path value fs
                         | Call _ _ => fs
                         end) trace fs.

(** The request currently standing for a class after a history of calls
    on the initial table. *)
Definition current_request (cast : Z -> LightType) (init : HwLightState)
  (calls : list (Z * HwLightState)) (type : LightType) : HwLightState :=
  match last_request cast type calls with
  | Some state => state
  | None => init
  end.

(** * Properties *)

(** ** Machine integers *)

Lemma wrap_u32_small (z : Z) : 0 <= z < 2 ^ 32 -> wrap_u32 z = z.
Proof. intros H. unfold wrap_u32. now apply Z.mod_small. Qed.

Lemma wrap_i32_small (z : Z) : int32 z -> wrap_i32 z = z.
Proof.
  unfold int32, wrap_i32. intros H.
  rewrite Z.mod_small; lia.
Qed.

Lemma wrap_i32_int32 (z : Z) : int32 (wrap_i32 z).
Proof.
  unfold int32, wrap_i32.
  pose proof (Z.mod_pos_bound (z + 2 ^ 31) (2 ^ 32)). lia.
Qed.

(** [wrap_i32] moves a value by a multiple of 2^32. *)
Lemma wrap_i32_shift (z : Z) : exists q, wrap_i32 z = z + q * 2 ^ 32.
Proof.
  exists (- ((z + 2 ^ 31) / 2 ^ 32)). unfold wrap_i32.
  rewrite Z.mod_eq by lia. lia.
Qed.

Lemma land_255 (x : Z) : Z.land x 255 = x mod 256.
Proof. change 255 with (Z.ones 8). now rewrite Z.land_ones by lia. Qed.

(** A byte of the stored colour is the byte of the packed colour: the
    arithmetic shift of the signed value and the mask undo the wrap. *)
Lemma byte_of_wrapped (z q k : Z) :
  0 <= k <= 24 ->
  Z.land (Z.shiftr (z + q * 2 ^ 32) k) 255 = (z / 2 ^ k) mod 256.
Proof.
  intros Hk. rewrite land_255, Z.shiftr_div_pow2 by lia.
  replace (z + q * 2 ^ 32) with (z + (q * 2 ^ (24 - k) * 256) * 2 ^ k).
  - rewrite Z.div_add by (apply Z.pow_nonzero; lia).
    now rewrite Z_mod_plus_full.
  - replace (2 ^ 32) with (2 ^ (24 - k) * 2 ^ 8 * 2 ^ k).
    + change (2 ^ 8) with 256. ring.
    + rewrite <- !Z.pow_add_r by lia. f_equal. lia.
Qed.

Lemma byte_bound (x : Z) : 0 <= x mod 256 <= 255.
Proof. pose proof (Z.mod_pos_bound x 256). lia. Qed.

Lemma dim_bound (alpha c : Z) :
  0 <= alpha <= 255 -> 0 <= c <= 255 -> 0 <= c * alpha / 255 <= 255.
Proof.
  intros Ha Hc. split.
  - apply Z.div_pos; nia.
  - apply Z.div_le_upper_bound; nia.
Qed.

Lemma spec_dim_bound (alpha c : Z) :
  0 <= alpha <= 255 -> 0 <= c <= 255 -> 0 <= spec_dim alpha c <= 255.
Proof.
  intros Ha Hc. unfold spec_dim.
  destruct (alpha =? 255); [lia | now apply dim_bound].
Qed.

(** ** Colour to brightness *)

Lemma getBrightness_shifted (state : HwLightState) (argb q : Z) :
  color state = argb + q * 2 ^ 32 ->
  getBrightness state = spec_luma argb.
Proof.
  intros Hcolor. unfold getBrightness, spec_luma. rewrite Hcolor.
  rewrite !(byte_of_wrapped argb q) by lia.
  replace (Z.land (argb + q * 2 ^ 32) 255) with ((argb / 2 ^ 0) mod 256)
    by (rewrite <- (byte_of_wrapped argb q 0) by lia;
        now rewrite Z.shiftr_0_r).
  change (2 ^ 0) with 1. rewrite Z.div_1_r.
  set (alpha := (argb / 2 ^ 24) mod 256).
  set (red := (argb / 2 ^ 16) mod 256).
  set (green := (argb / 2 ^ 8) mod 256).
  set (blue := argb mod 256).
  assert (Ha : 0 <= alpha <= 255) by apply byte_bound.
  assert (Hr : 0 <= red <= 255) by apply byte_bound.
  assert (Hg : 0 <= green <= 255) by apply byte_bound.
  assert (Hb : 0 <= blue <= 255) by apply byte_bound.
  assert (Hmul : forall c, 0 <= c <= 255 -> mul_u32 c alpha = c * alpha).
  { intros c Hc. unfold mul_u32. apply wrap_u32_small. nia. }
  assert (Hsum : forall r g b, 0 <= r <= 255 -> 0 <= g <= 255 ->
            0 <= b <= 255 ->
            Z.shiftr (add_u32 (add_u32 (mul_u32 77 r) (mul_u32 150 g))
                        (mul_u32 29 b)) 8
            = (77 * r + 150 * g + 29 * b) / 256).
  { intros r g b Hr' Hg' Hb'. unfold add_u32, mul_u32.
    rewrite (wrap_u32_small (77 * r)), (wrap_u32_small (150 * g)),
      (wrap_u32_small (29 * b)) by lia.
    rewrite (wrap_u32_small (77 * r + 150 * g)) by lia.
    rewrite wrap_u32_small by lia.
    now rewrite Z.shiftr_div_pow2 by lia. }
  unfold spec_dim. destruct (alpha =? 255) eqn:E; cbn [negb].
  - now apply Hsum.
  - rewrite !Hmul by assumption.
    apply Hsum; now apply dim_bound.
Qed.

Lemma getBrightness_spec (argb : Z) (mode : FlashMode) (onMs offMs : Z)
  (bmode : BrightnessMode) :
  getBrightness (argb_state argb mode onMs offMs bmode) = spec_luma argb.
Proof.
  destruct (wrap_i32_shift argb) as [q Hq].
  now apply getBrightness_shifted with (q := q).
Qed.

Lemma spec_luma_bound (argb : Z) : 0 <= spec_luma argb <= 255.
Proof.
  unfold spec_luma.
  set (alpha := (argb / 2 ^ 24) mod 256).
  pose proof (spec_dim_bound alpha ((argb / 2 ^ 16) mod 256)
                (byte_bound _) (byte_bound _)).
  pose proof (spec_dim_bound alpha ((argb / 2 ^ 8) mod 256)
                (byte_bound _) (byte_bound _)).
  pose proof (spec_dim_bound alpha (argb mod 256)
                (byte_bound _) (byte_bound _)).
  split.
  - apply Z.div_pos; lia.
  - apply Z.div_le_upper_bound; lia.
Qed.

Lemma getBrightness_bound (state : HwLightState) :
  0 <= getBrightness state <= 255.
Proof.
  rewrite (getBrightness_shifted state (color state) 0) by ring.
  apply spec_luma_bound.
Qed.

Lemma getScaledBrightness_led (state : HwLightState) :
  getScaledBrightness state MAX_LED_BRIGHTNESS = getBrightness state.
Proof.
  unfold getScaledBrightness, scaleBrightness, mul_u32, MAX_LED_BRIGHTNESS.
  pose proof (getBrightness_bound state).
  rewrite wrap_u32_small by lia. apply Z.div_mul. lia.
Qed.

Lemma getScaledBrightness_bound (state : HwLightState) (maxBrightness : Z) :
  0 <= maxBrightness <= 16843009 ->
  0 <= getScaledBrightness state maxBrightness <= maxBrightness.
Proof.
  intros Hm. unfold getScaledBrightness, scaleBrightness, mul_u32.
  pose proof (getBrightness_bound state).
  rewrite wrap_u32_small by nia. split.
  - apply Z.div_pos; nia.
  - apply Z.div_le_upper_bound; nia.
Qed.

Lemma getScaledBrightness_spec (argb : Z) (mode : FlashMode)
  (onMs offMs : Z) (bmode : BrightnessMode) (maxBrightness : Z) :
  0 <= maxBrightness <= 16843009 ->
  getScaledBrightness (argb_state argb mode onMs offMs bmode) maxBrightness
  = spec_scaled_brightness argb maxBrightness.
Proof.
  intros Hm. unfold getScaledBrightness, scaleBrightness.
  rewrite getBrightness_spec. unfold spec_scaled_brightness, mul_u32.
  pose proof (spec_luma_bound argb).
  rewrite wrap_u32_small by nia. reflexivity.
Qed.

(** Every state is [argb_state] of its stored colour read as unsigned. *)
Lemma state_as_argb (s : HwLightState) :
  int32 (color s) ->
  s = argb_state (wrap_u32 (color s)) (flashMode s) (flashOnMs s)
        (flashOffMs s) (brightnessMode s).
Proof.
  intros H. destruct s as [c m on off bm]; cbn in *.
  unfold argb_state. f_equal.
  unfold wrap_i32, wrap_u32, int32 in *.
  destruct (Z.neg_nonneg_cases c) as [Hneg | Hpos].
  - replace (c mod 2 ^ 32) with (c + 2 ^ 32).
    + replace (c + 2 ^ 32 + 2 ^ 31) with (c + 2 ^ 31 + 1 * 2 ^ 32) by ring.
      rewrite Z_mod_plus_full, Z.mod_small; lia.
    + replace c with (c + 2 ^ 32 + (-1) * 2 ^ 32) at 2 by ring.
      rewrite Z_mod_plus_full, Z.mod_small; lia.
  - rewrite (Z.mod_small c) by lia. rewrite Z.mod_small; lia.
Qed.

(** C3. For every packed ARGB colour (stored in the state's 32-bit signed
    field) the brightness handed to the hardware is the one the
    specification describes: components extracted, colour channels dimmed
    by alpha unless alpha is 0xFF, luma (77 r + 150 g + 29 b) / 256, then
    luma * maxBrightness / 255, every division truncating; this holds in
    the LED range 255 and in the backlight range 4095. Black with full
    alpha gives 0 in both ranges, white with full alpha gives 255 and
    4095. *)
Theorem brightness_translation :
  forall (argb : Z) (mode : FlashMode) (onMs offMs : Z)
         (bmode : BrightnessMode),
    let state := argb_state argb mode onMs offMs bmode in
    getBrightness state = spec_luma argb
    /\ getScaledBrightness state MAX_LED_BRIGHTNESS
       = spec_scaled_brightness argb 255
    /\ getScaledBrightness state MAX_LCD_BRIGHTNESS
       = spec_scaled_brightness argb 4095
    /\ getScaledBrightness (argb_state 0xFF000000 mode onMs offMs bmode)
         MAX_LED_BRIGHTNESS = 0
    /\ getScaledBrightness (argb_state 0xFF000000 mode onMs offMs bmode)
         MAX_LCD_BRIGHTNESS = 0
    /\ getScaledBrightness (argb_state 0xFFFFFFFF mode onMs offMs bmode)
         MAX_LED_BRIGHTNESS = 255
    /\ getScaledBrightness (argb_state 0xFFFFFFFF mode onMs offMs bmode)
         MAX_LCD_BRIGHTNESS = 4095.
Proof.
  intros argb mode onMs offMs bmode state. unfold state.
  split; [apply getBrightness_spec |].
  split; [apply getScaledBrightness_spec; unfold MAX_LED_BRIGHTNESS; lia |].
  split; [apply getScaledBrightness_spec; unfold MAX_LCD_BRIGHTNESS; lia |].
  repeat split; reflexivity.
Qed.

(** ** Halving alpha *)

Lemma twice_div_le (x y d : Z) :
  0 < d -> 2 * x <= y -> 2 * (x / d) <= y / d.
Proof.
  intros Hd Hxy.
  replace (2 * (x / d)) with (x / d * 2) by ring.
  apply Z.div_le_lower_bound; [assumption |].
  pose proof (Z.mul_div_le x d Hd). lia.
Qed.

Lemma pack_argb_alpha (alpha rgb : Z) :
  0 <= alpha <= 255 -> 0 <= rgb < 2 ^ 24 ->
  (pack_argb alpha rgb / 2 ^ 24) mod 256 = alpha.
Proof.
  intros Ha Hrgb. unfold pack_argb.
  rewrite Z.add_comm, Z.div_add by lia.
  rewrite Z.div_small by lia. apply Z.mod_small. lia.
Qed.

Lemma pack_argb_channel (alpha rgb k : Z) :
  0 <= k <= 16 ->
  (pack_argb alpha rgb / 2 ^ k) mod 256 = (rgb / 2 ^ k) mod 256.
Proof.
  intros Hk. unfold pack_argb.
  replace (alpha * 2 ^ 24 + rgb)
    with (rgb + (alpha * 2 ^ (16 - k) * 256) * 2 ^ k).
  - rewrite Z.div_add by (apply Z.pow_nonzero; lia).
    now rewrite Z_mod_plus_full.
  - replace (2 ^ 24) with (2 ^ (16 - k) * 2 ^ 8 * 2 ^ k).
    + change (2 ^ 8) with 256. ring.
    + rewrite <- !Z.pow_add_r by lia. f_equal. lia.
Qed.

Lemma spec_dim_half (alpha c : Z) :
  0 <= alpha <= 255 -> 0 <= c <= 255 ->
  2 * spec_dim (alpha / 2) c <= spec_dim alpha c.
Proof.
  intros Ha Hc. unfold spec_dim.
  assert (Hhalf : 0 <= alpha / 2 < 128).
  { split; [apply Z.div_pos; lia | apply Z.div_lt_upper_bound; lia]. }
  assert (H2 : 2 * (alpha / 2) <= alpha).
  { pose proof (Z.mul_div_le alpha 2). lia. }
  replace (alpha / 2 =? 255) with false by (symmetry; apply Z.eqb_neq; lia).
  assert (Hgen : 2 * (c * (alpha / 2) / 255) <= c * alpha / 255)
    by (apply twice_div_le; nia).
  destruct (Z.eqb_spec alpha 255) as [-> | _]; [| assumption].
  now rewrite Z.div_mul in Hgen by lia.
Qed.

Lemma spec_luma_half (alpha rgb : Z) :
  0 <= alpha <= 255 -> 0 <= rgb < 2 ^ 24 ->
  2 * spec_luma (pack_argb (alpha / 2) rgb)
  <= spec_luma (pack_argb alpha rgb).
Proof.
  intros Ha Hrgb.
  assert (Hhalf : 0 <= alpha / 2 <= 255).
  { split; [apply Z.div_pos; lia | apply Z.div_le_upper_bound; lia]. }
  unfold spec_luma.
  rewrite !pack_argb_alpha by assumption.
  rewrite !(pack_argb_channel _ rgb 16), !(pack_argb_channel _ rgb 8) by lia.
  replace (pack_argb (alpha / 2) rgb mod 256) with (rgb mod 256).
  2:{ pose proof (pack_argb_channel (alpha / 2) rgb 0) as H.
      change (2 ^ 0) with 1 in H. rewrite !Z.div_1_r in H.
      symmetry. apply H. lia. }
  replace (pack_argb alpha rgb mod 256) with (rgb mod 256).
  2:{ pose proof (pack_argb_channel alpha rgb 0) as H.
      change (2 ^ 0) with 1 in H. rewrite !Z.div_1_r in H.
      symmetry. apply H. lia. }
  pose proof (spec_dim_half alpha _ Ha (byte_bound (rgb / 2 ^ 16))).
  pose proof (spec_dim_half alpha _ Ha (byte_bound (rgb / 2 ^ 8))).
  pose proof (spec_dim_half alpha _ Ha (byte_bound rgb)).
  apply twice_div_le; lia.
Qed.

Lemma spec_scaled_half (alpha rgb maxBrightness : Z) :
  0 <= alpha <= 255 -> 0 <= rgb < 2 ^ 24 -> 0 <= maxBrightness ->
  spec_scaled_brightness (pack_argb (alpha / 2) rgb) maxBrightness
  <= spec_scaled_brightness (pack_argb alpha rgb) maxBrightness / 2.
Proof.
  intros Ha Hrgb Hm. unfold spec_scaled_brightness.
  pose proof (spec_luma_half alpha rgb Ha Hrgb).
  apply Z.div_le_lower_bound; [lia |].
  apply twice_div_le; nia.
Qed.

(** C7, as the specification words it, fails: with R, G, B fixed at
    0x80, 0x40, 0x20, alpha 0xFF gives 79 of 255 and 1268 of 4095, while
    alpha 0xFF / 2 = 0x7F gives 38 and 610, not 39 and 634. *)
Lemma halving_alpha_not_exact :
  let full := solid (pack_argb 0xFF 0x804020) in
  let half := solid (pack_argb (0xFF / 2) 0x804020) in
  getScaledBrightness half MAX_LED_BRIGHTNESS
    <> getScaledBrightness full MAX_LED_BRIGHTNESS / 2
  /\ getScaledBrightness half MAX_LCD_BRIGHTNESS
    <> getScaledBrightness full MAX_LCD_BRIGHTNESS / 2.
Proof. vm_compute. split; discriminate. Qed.

(** Truncating before doubling loses less than two divisors' worth. *)
Lemma div_le_twice_div (x y d m : Z) :
  0 < d -> y <= 2 * x + m ->
  y / d <= 2 * (x / d) + (m + 2 * (d - 1)) / d.
Proof.
  intros Hd Hxy.
  pose proof (Z.div_mod x d ltac:(lia)) as Hx.
  pose proof (Z.mod_pos_bound x d Hd) as Hr.
  replace (2 * (x / d) + (m + 2 * (d - 1)) / d)
    with ((m + 2 * (d - 1) + 2 * (x / d) * d) / d)
    by (rewrite Z.div_add by lia; ring).
  apply Z.div_le_mono; [assumption | lia].
Qed.

Lemma spec_dim_half_lower (alpha c : Z) :
  0 <= alpha <= 255 -> 0 <= c <= 255 ->
  spec_dim alpha c <= 2 * spec_dim (alpha / 2) c + 2.
Proof.
  intros Ha Hc. unfold spec_dim.
  assert (Hhalf : 0 <= alpha / 2 < 128).
  { split; [apply Z.div_pos; lia | apply Z.div_lt_upper_bound; lia]. }
  assert (H2 : alpha <= 2 * (alpha / 2) + 1).
  { pose proof (Z.div_mod alpha 2 ltac:(lia)).
    pose proof (Z.mod_pos_bound alpha 2 ltac:(lia)). lia. }
  replace (alpha / 2 =? 255) with false by (symmetry; apply Z.eqb_neq; lia).
  assert (Hgen : c * alpha / 255 <= 2 * (c * (alpha / 2) / 255) + 2).
  { change 2 with ((255 + 2 * (255 - 1)) / 255) at 3.
    apply div_le_twice_div; nia. }
  destruct (Z.eqb_spec alpha 255) as [-> | _]; [| assumption].
  now rewrite Z.div_mul in Hgen by lia.
Qed.

Lemma spec_luma_half_lower (alpha rgb : Z) :
  0 <= alpha <= 255 -> 0 <= rgb < 2 ^ 24 ->
  spec_luma (pack_argb alpha rgb)
  <= 2 * spec_luma (pack_argb (alpha / 2) rgb) + 3.
Proof.
  intros Ha Hrgb.
  assert (Hhalf : 0 <= alpha / 2 <= 255).
  { split; [apply Z.div_pos; lia | apply Z.div_le_upper_bound; lia]. }
  unfold spec_luma.
  rewrite !pack_argb_alpha by assumption.
  rewrite !(pack_argb_channel _ rgb 16), !(pack_argb_channel _ rgb 8) by lia.
  replace (pack_argb (alpha / 2) rgb mod 256) with (rgb mod 256).
  2:{ pose proof (pack_argb_channel (alpha / 2) rgb 0) as H.
      change (2 ^ 0) with 1 in H. rewrite !Z.div_1_r in H.
      symmetry. apply H. lia. }
  replace (pack_argb alpha rgb mod 256) with (rgb mod 256).
  2:{ pose proof (pack_argb_channel alpha rgb 0) as H.
      change (2 ^ 0) with 1 in H. rewrite !Z.div_1_r in H.
      symmetry. apply H. lia. }
  pose proof (spec_dim_half_lower alpha _ Ha (byte_bound (rgb / 2 ^ 16))).
  pose proof (spec_dim_half_lower alpha _ Ha (byte_bound (rgb / 2 ^ 8))).
  pose proof (spec_dim_half_lower alpha _ Ha (byte_bound rgb)).
  change 3 with ((512 + 2 * (256 - 1)) / 256).
  apply div_le_twice_div; lia.
Qed.

Lemma half_of_twice_plus (x y k : Z) :
  y <= 2 * x + k -> y / 2 - k / 2 <= x.
Proof.
  intros H.
  assert (Hdiv : y / 2 <= (k + x * 2) / 2) by (apply Z.div_le_mono; lia).
  rewrite Z.div_add in Hdiv by lia. lia.
Qed.

(** The loss is real in both ranges and the bounds below are reached: one
    unit of 255 at 0x03 00 FF FF, twenty-five of 4095 at 0x25 D6 FF F9. *)
Example halving_alpha_largest_loss :
  getScaledBrightness (solid (pack_argb (0x03 / 2) 0x00FFFF))
    MAX_LED_BRIGHTNESS
  = getScaledBrightness (solid (pack_argb 0x03 0x00FFFF))
      MAX_LED_BRIGHTNESS / 2 - 1
  /\ getScaledBrightness (solid (pack_argb (0x25 / 2) 0xD6FFF9))
       MAX_LCD_BRIGHTNESS
     = getScaledBrightness (solid (pack_argb 0x25 0xD6FFF9))
         MAX_LCD_BRIGHTNESS / 2 - 25.
Proof. vm_compute. split; reflexivity. Qed.

(** C7, amended. Halving the alpha component of a packed colour, with R, G
    and B fixed, halves the scaled brightness by truncation up to the
    truncations on the way (each channel, the luma, the scaling): the
    result is never more than floor(scaled / 2) and falls short of it by
    at most 1 in the 255 range and by at most 25 in the 4095 range. *)
Theorem halving_alpha_within_truncation :
  forall (alpha rgb : Z) (mode : FlashMode) (onMs offMs : Z)
         (bmode : BrightnessMode),
    0 <= alpha <= 255 -> 0 <= rgb < 2 ^ 24 ->
    let full := argb_state (pack_argb alpha rgb) mode onMs offMs bmode in
    let half := argb_state (pack_argb (alpha / 2) rgb) mode onMs offMs bmode in
    getScaledBrightness full MAX_LED_BRIGHTNESS / 2 - 1
      <= getScaledBrightness half MAX_LED_BRIGHTNESS
      <= getScaledBrightness full MAX_LED_BRIGHTNESS / 2
    /\ getScaledBrightness full MAX_LCD_BRIGHTNESS / 2 - 25
      <= getScaledBrightness half MAX_LCD_BRIGHTNESS
      <= getScaledBrightness full MAX_LCD_BRIGHTNESS / 2.
Proof.
  intros alpha rgb mode onMs offMs bmode Ha Hrgb full half.
  unfold full, half, MAX_LED_BRIGHTNESS, MAX_LCD_BRIGHTNESS.
  rewrite !getScaledBrightness_spec by lia.
  pose proof (spec_luma_half_lower alpha rgb Ha Hrgb) as Hlower.
  pose proof (spec_luma_bound (pack_argb alpha rgb)) as Hfull.
  pose proof (spec_luma_bound (pack_argb (alpha / 2) rgb)) as Hhalf.
  split; (split; [| apply spec_scaled_half; assumption || lia]).
  - unfold spec_scaled_brightness. rewrite !Z.div_mul by lia.
    change 1 with (3 / 2). now apply half_of_twice_plus.
  - unfold spec_scaled_brightness.
    change 25 with (50 / 2). apply half_of_twice_plus.
    change 50 with ((3 * 4095 + 2 * (255 - 1)) / 255).
    apply div_le_twice_div; lia.
Qed.

Lemma halving_alpha_within_truncation_witness :
  let full := solid (pack_argb 0xFF 0x804020) in
  let half := solid (pack_argb (0xFF / 2) 0x804020) in
  getScaledBrightness full MAX_LED_BRIGHTNESS / 2 - 1
    <= getScaledBrightness half MAX_LED_BRIGHTNESS
    <= getScaledBrightness full MAX_LED_BRIGHTNESS / 2
  /\ getScaledBrightness full MAX_LCD_BRIGHTNESS / 2 - 25
    <= getScaledBrightness half MAX_LCD_BRIGHTNESS
    <= getScaledBrightness full MAX_LCD_BRIGHTNESS / 2.
Proof.
  apply (halving_alpha_within_truncation 0xFF 0x804020 NONE 0 0 USER); lia.
Defined.

(** ** The notification handler *)

Lemma to_string_wrap_i32 (z : Z) :
  int32 z -> to_string (wrap_i32 z) = to_string z.
Proof. intros H. now rewrite wrap_i32_small. Qed.

(** The trace of the TIMED branch, with the timing still as the code
    computes it. *)
Lemma handleNotification_timed (state : HwLightState) :
  flashMode state = TIMED ->
  handleNotification state =
  let pauseHi := sub_i32 (flashOnMs state) 800 in
  [ Write (WHITE_LED ++ BLINK) "0";
    Write (WHITE_LED ++ START_IDX) "0";
    Write (WHITE_LED ++ DUTY_PCTS)
      (getScaledRamp (getScaledBrightness state MAX_LED_BRIGHTNESS));
    Write (WHITE_LED ++ PAUSE_LO) (to_string (wrap_i32 (flashOffMs state)));
    Write (WHITE_LED ++ PAUSE_HI)
      (to_string (wrap_i32 (if pauseHi <? 0 then 0 else pauseHi)));
    Write (WHITE_LED ++ RAMP_STEP_MS)
      (to_string (wrap_i32 (if pauseHi <? 0
                            then div_i32 (flashOnMs state) 16
                            else 50)));
    Write (WHITE_LED ++ BLINK) "1" ].
Proof.
  intros Hmode. unfold handleNotification. rewrite Hmode.
  cbn [FlashMode_eqb].
  change (mul_i32 (mul_i32 RAMP_STEP_DURATION RAMP_STEPS) 2) with 800.
  change (mul_i32 RAMP_STEPS 2) with 16.
  cbv zeta. destruct (sub_i32 (flashOnMs state) 800 <? 0); reflexivity.
Qed.

Lemma handleNotification_static (state : HwLightState) :
  flashMode state <> TIMED ->
  handleNotification state =
  [ Write (WHITE_LED ++ BLINK) "0";
    Write (WHITE_LED ++ BRIGHTNESS)
      (to_string
         (wrap_i32 (getScaledBrightness state MAX_LED_BRIGHTNESS))) ].
Proof.
  intros Hmode. unfold handleNotification.
  destruct (flashMode state); [reflexivity | contradiction | reflexivity].
Qed.

(** C8. Every render of the notification handler first writes 0 to the
    blink attribute. With flash mode TIMED the five program attributes
    (start_idx, duty_pcts, pause_lo, pause_hi, ramp_step_ms) follow, each
    written once, and the write of 1 to blink comes last; with any other
    flash mode the only write after the disable is the static scaled
    brightness, and no program attribute is written. *)
Theorem blink_disabled_first_enabled_last :
  forall state : HwLightState,
    hd_error (handleNotification state) = Some (Write (WHITE_LED ++ BLINK) "0")
    /\ match flashMode state with
       | TIMED =>
           exists program : io,
             handleNotification state =
             Write (WHITE_LED ++ BLINK) "0" :: program
               ++ [Write (WHITE_LED ++ BLINK) "1"]
             /\ paths program = program_attributes
       | _ =>
           handleNotification state =
           [ Write (WHITE_LED ++ BLINK) "0";
             Write (WHITE_LED ++ BRIGHTNESS)
               (to_string (getScaledBrightness state MAX_LED_BRIGHTNESS)) ]
           /\ forall attribute, In attribute program_attributes ->
                written attribute (handleNotification state) = []
       end.
Proof.
  intros state. split; [reflexivity |].
  assert (Hstatic : flashMode state <> TIMED ->
            handleNotification state =
            [ Write (WHITE_LED ++ BLINK) "0";
              Write (WHITE_LED ++ BRIGHTNESS)
                (to_string (getScaledBrightness state MAX_LED_BRIGHTNESS)) ]
            /\ forall attribute, In attribute program_attributes ->
                 written attribute (handleNotification state) = []).
  { intros Hmode. rewrite (handleNotification_static state Hmode).
    rewrite to_string_wrap_i32.
    - split; [reflexivity |].
      intros attribute Hin. unfold program_attributes in Hin.
      repeat (destruct Hin as [<- | Hin]; [reflexivity |]).
      destruct Hin.
    - pose proof (getScaledBrightness_bound state MAX_LED_BRIGHTNESS).
      unfold int32, MAX_LED_BRIGHTNESS in *. lia. }
  destruct (flashMode state) eqn:Hmode.
  - apply Hstatic. discriminate.
  - rewrite (handleNotification_timed state Hmode). cbv zeta.
    eexists [_; _; _; _; _]. split; reflexivity.
  - apply Hstatic. discriminate.
Qed.

Lemma quot_16_int32 (a : Z) : int32 a -> int32 (Z.quot a 16).
Proof.
  unfold int32. intros Ha.
  pose proof (Z.quot_rem' a 16) as Hqr.
  destruct (Z.neg_nonneg_cases a) as [Hneg | Hpos].
  - pose proof (Z.rem_bound_pos_neg a 16). lia.
  - pose proof (Z.rem_bound_pos_pos a 16). lia.
Qed.

(** C4. In the TIMED branch, for every flashOffMs and every flashOnMs from
    which 800 can be subtracted in 32 bits: pause_hi is flashOnMs - 50*8*2
    with ramp_step_ms 50, unless that difference is negative, in which
    case ramp_step_ms is flashOnMs / 16 (C++ integer division) and
    pause_hi is 0; pause_lo is flashOffMs as given. With flashOnMs = 1000
    the writes are pause_hi 200 and ramp_step_ms 50; with flashOnMs = 100
    they are pause_hi 0 and ramp_step_ms 6. *)
Theorem blink_timing :
  forall state : HwLightState,
    flashMode state = TIMED ->
    int32 (flashOffMs state) ->
    - 2 ^ 31 + 800 <= flashOnMs state < 2 ^ 31 ->
    let '(stepDuration, pauseHi) := spec_blink_timing (flashOnMs state) in
    let trace := handleNotification state in
    written (WHITE_LED ++ PAUSE_HI) trace = [to_string pauseHi]
    /\ written (WHITE_LED ++ RAMP_STEP_MS) trace = [to_string stepDuration]
    /\ written (WHITE_LED ++ PAUSE_LO) trace = [to_string (flashOffMs state)]
    /\ (flashOnMs state = 1000 ->
        written (WHITE_LED ++ PAUSE_HI) trace = ["200"]
        /\ written (WHITE_LED ++ RAMP_STEP_MS) trace = ["50"])
    /\ (flashOnMs state = 100 ->
        written (WHITE_LED ++ PAUSE_HI) trace = ["0"]
        /\ written (WHITE_LED ++ RAMP_STEP_MS) trace = ["6"]).
Proof.
  intros state Hmode Hoff Hon.
  assert (Hgeneral :
    let '(stepDuration, pauseHi) := spec_blink_timing (flashOnMs state) in
    let trace := handleNotification state in
    written (WHITE_LED ++ PAUSE_HI) trace = [to_string pauseHi]
    /\ written (WHITE_LED ++ RAMP_STEP_MS) trace = [to_string stepDuration]
    /\ written (WHITE_LED ++ PAUSE_LO) trace
       = [to_string (flashOffMs state)]).
  { rewrite (handleNotification_timed state Hmode).
    unfold spec_blink_timing, sub_i32, div_i32. cbv zeta.
    change (50 * 8 * 2) with 800.
    rewrite (wrap_i32_small (flashOnMs state - 800)) by (unfold int32; lia).
    rewrite (wrap_i32_small (flashOffMs state)) by assumption.
    destruct (flashOnMs state - 800 <? 0) eqn:Hneg.
    - assert (Hquot : int32 (Z.quot (flashOnMs state) 16))
        by (apply quot_16_int32; unfold int32; lia).
      rewrite (wrap_i32_small (Z.quot (flashOnMs state) 16)) by assumption.
      rewrite (wrap_i32_small (Z.quot (flashOnMs state) 16)) by assumption.
      repeat split; reflexivity.
    - apply Z.ltb_ge in Hneg.
      rewrite !wrap_i32_small by (unfold int32; lia).
      repeat split; reflexivity. }
  destruct (spec_blink_timing (flashOnMs state))
    as [stepDuration pauseHi] eqn:Hspec.
  cbv zeta in *. destruct Hgeneral as (Hhi & Hstep & Hlo).
  split; [exact Hhi |]. split; [exact Hstep |]. split; [exact Hlo |].
  rewrite Hhi, Hstep.
  split; intros Hon'; rewrite Hon' in Hspec; inversion Hspec;
    split; reflexivity.
Qed.

Lemma blink_timing_witness :
  (written (WHITE_LED ++ PAUSE_HI)
     (handleNotification (blinking 0xFFFFFFFF 1000 300)) = ["200"]
   /\ written (WHITE_LED ++ RAMP_STEP_MS)
        (handleNotification (blinking 0xFFFFFFFF 1000 300)) = ["50"])
  /\ (written (WHITE_LED ++ PAUSE_HI)
        (handleNotification (blinking 0xFFFFFFFF 100 300)) = ["0"]
      /\ written (WHITE_LED ++ RAMP_STEP_MS)
           (handleNotification (blinking 0xFFFFFFFF 100 300)) = ["6"]).
Proof.
  split.
  - apply (blink_timing (blinking 0xFFFFFFFF 1000 300));
      unfold int32; cbn; (reflexivity || lia).
  - apply (blink_timing (blinking 0xFFFFFFFF 100 300));
      unfold int32; cbn; (reflexivity || lia).
Defined.

(** ** The duty-cycle ramp *)

Lemma string_app_nil_r (s : string) : (s ++ "")%string = s.
Proof. induction s as [| c s IH]; cbn; [reflexivity | now rewrite IH]. Qed.

Lemma string_app_assoc (s t u : string) :
  ((s ++ t) ++ u)%string = (s ++ (t ++ u))%string.
Proof. induction s as [| c s IH]; cbn; [reflexivity | now rewrite IH]. Qed.

(** The loop with its [pad] variable builds the comma-separated list. *)
Lemma getScaledRamp_loop (brightness : Z) (steps : list Z)
  (ramp pad : string) :
  fst (fold_left (getScaledRamp_body brightness) steps (ramp, pad))
  = (ramp ++
     match steps with
     | [] => ""
     | _ => pad ++ String.concat ","
                     (map (fun step =>
                             to_string
                               (mul_u32 (wrap_u32 step) brightness / 255))
                        steps)
     end)%string.
Proof.
  revert ramp pad.
  induction steps as [| step steps IH]; intros ramp pad.
  - cbn. now rewrite string_app_nil_r.
  - cbn [fold_left getScaledRamp_body]. rewrite IH.
    destruct steps as [| step' steps].
    + cbn. now rewrite string_app_nil_r.
    + cbn [map String.concat]. now rewrite !string_app_assoc.
Qed.

Lemma ramp_product_exact (brightness step : Z) :
  0 <= brightness <= 42949672 -> In step BRIGHTNESS_RAMP ->
  mul_u32 (wrap_u32 step) brightness = step * brightness.
Proof.
  intros Hb Hin.
  assert (Hstep : 0 <= step <= 100).
  { unfold BRIGHTNESS_RAMP in Hin.
    repeat (destruct Hin as [<- | Hin]; [lia |]). destruct Hin. }
  unfold mul_u32. rewrite (wrap_u32_small step) by lia.
  apply wrap_u32_small. nia.
Qed.

Lemma getScaledRamp_spec (brightness : Z) :
  0 <= brightness <= 42949672 ->
  getScaledRamp brightness
  = String.concat "," (map to_string (spec_ramp brightness)).
Proof.
  intros Hb. unfold getScaledRamp. rewrite getScaledRamp_loop.
  unfold spec_ramp. rewrite map_map.
  change [0; 12; 25; 37; 50; 72; 85; 100] with BRIGHTNESS_RAMP.
  cbn [append]. unfold BRIGHTNESS_RAMP at 1. cbn [append].
  f_equal. apply map_ext_in. intros step Hin.
  now rewrite ramp_product_exact.
Qed.

(** Decimal numerals contain no comma and read back as the integer. *)
Lemma comma_free_uint (d : Decimal.uint) :
  comma_free (NilEmpty.string_of_uint d) = true.
Proof. induction d; cbn; assumption || reflexivity. Qed.

Lemma comma_free_to_string (z : Z) : 0 <= z -> comma_free (to_string z) = true.
Proof.
  intros Hz. unfold to_string.
  destruct z as [| p | p]; [reflexivity | | lia].
  cbn. unfold NilZero.string_of_uint.
  destruct (Pos.to_uint p) eqn:E; try reflexivity;
    rewrite <- E; apply comma_free_uint.
Qed.

Lemma parse_to_string (z : Z) : parse_int (to_string z) = Some z.
Proof.
  unfold parse_int, to_string. rewrite NilZero.isi.
  - cbn. now rewrite DecimalZ.of_to.
  - destruct z; cbn; try discriminate.
    intros H. inversion H as [H'].
    now apply DecimalPos.Unsigned.to_uint_nonnil in H'.
  - destruct z; cbn; try discriminate.
    intros H. inversion H as [H'].
    now apply DecimalPos.Unsigned.to_uint_nonnil in H'.
Qed.

Lemma fields_from_app (value rest current : string) :
  comma_free value = true ->
  fields_from current (value ++ rest) = fields_from (current ++ value) rest.
Proof.
  revert current.
  induction value as [| c value IH]; intros current Hfree.
  - cbn. now rewrite string_app_nil_r.
  - cbn in Hfree. apply andb_true_iff in Hfree as [Hc Hfree].
    apply negb_true_iff in Hc.
    cbn [append fields_from]. rewrite Hc, IH by assumption.
    now rewrite string_app_assoc.
Qed.

Lemma fields_from_concat (values : list string) (value current : string) :
  Forall (fun v => comma_free v = true) (value :: values) ->
  fields_from current (String.concat "," (value :: values))
  = (current ++ value)%string :: values.
Proof.
  revert value current.
  induction values as [| next values IH]; intros value current Hfree.
  - cbn [String.concat].
    rewrite <- (string_app_nil_r value) at 1.
    rewrite fields_from_app by now inversion Hfree.
    reflexivity.
  - change (String.concat "," (value :: next :: values))
      with (value
            ++ String ","%char (String.concat "," (next :: values)))%string.
    inversion Hfree as [| ? ? Hvalue Hrest]; subst.
    rewrite fields_from_app by assumption.
    change (fields_from (current ++ value)
              (String ","%char (String.concat "," (next :: values))))
      with ((current ++ value)%string
            :: fields_from "" (String.concat "," (next :: values))).
    f_equal. now rewrite IH.
Qed.

Lemma spec_ramp_nonneg (b : Z) :
  0 <= b -> Forall (fun v => 0 <= v) (spec_ramp b).
Proof.
  intros Hb. unfold spec_ramp. apply Forall_forall. intros v Hin.
  apply in_map_iff in Hin as (pct & <- & Hpct).
  apply Z.div_pos; [| lia].
  repeat (destruct Hpct as [<- | Hpct]; [lia |]). destruct Hpct.
Qed.

(** In a render the ramp is always computed from a brightness of the LED
    range, so the bound of the next statement is met on every call. *)
Lemma duty_pcts_of_render (state : HwLightState) :
  flashMode state = TIMED ->
  written (WHITE_LED ++ DUTY_PCTS) (handleNotification state)
  = [String.concat "," (map to_string (spec_ramp (getBrightness state)))].
Proof.
  intros Hmode. rewrite (handleNotification_timed state Hmode). cbv zeta.
  rewrite getScaledBrightness_led.
  pose proof (getBrightness_bound state).
  rewrite getScaledRamp_spec by lia. reflexivity.
Qed.

(** C5. For every brightness b whose products with the ramp do not leave
    32 bits, the ramp string is exactly eight comma-separated decimal
    integers, the i-th being floor(pct_i * b / 255) for the percentages 0,
    12, 25, 37, 50, 72, 85, 100 in this order; for b = 200 it is
    0,9,19,29,39,56,66,78. Every brightness the notification handler
    computes from a state lies in 0..255 and so is such a b. *)
Theorem scaled_ramp_values :
  (forall b : Z,
      0 <= b <= 42949672 ->
      getScaledRamp b = String.concat "," (map to_string (spec_ramp b))
      /\ fields (getScaledRamp b) = map to_string (spec_ramp b)
      /\ map parse_int (fields (getScaledRamp b))
         = map Some [ 0 * b / 255; 12 * b / 255; 25 * b / 255; 37 * b / 255;
                      50 * b / 255; 72 * b / 255; 85 * b / 255;
                      100 * b / 255 ]
      /\ List.length (fields (getScaledRamp b)) = 8%nat)
  /\ getScaledRamp 200 = "0,9,19,29,39,56,66,78"
  /\ (forall state : HwLightState,
        let whiteBrightness :=
          getScaledBrightness state MAX_LED_BRIGHTNESS in
        0 <= whiteBrightness <= 255
        /\ fields (getScaledRamp whiteBrightness)
           = map to_string (spec_ramp whiteBrightness)).
Proof.
  assert (Hfields : forall b, 0 <= b <= 42949672 ->
            fields (getScaledRamp b) = map to_string (spec_ramp b)).
  { intros b Hb. rewrite (getScaledRamp_spec b Hb). unfold fields.
    pose proof (spec_ramp_nonneg b (proj1 Hb)) as Hnonneg.
    unfold spec_ramp in *. cbn [map] in *.
    rewrite fields_from_concat; [reflexivity |].
    repeat match goal with
           | H : Forall _ (_ :: _) |- _ =>
               let Hhead := fresh in let Htail := fresh in
               inversion H as [| ? ? Hhead Htail]; subst; clear H
           end.
    repeat constructor; now apply comma_free_to_string. }
  split; [| split].
  - intros b Hb.
    split; [now apply getScaledRamp_spec |].
    split; [now apply Hfields |].
    rewrite (Hfields b Hb). unfold spec_ramp. cbn [map List.length].
    rewrite !parse_to_string. split; reflexivity.
  - reflexivity.
  - intros state whiteBrightness.
    pose proof (getScaledBrightness_bound state MAX_LED_BRIGHTNESS
                  ltac:(unfold MAX_LED_BRIGHTNESS; lia)) as Hbound.
    fold whiteBrightness in Hbound. unfold MAX_LED_BRIGHTNESS in Hbound.
    split; [exact Hbound |]. apply Hfields. lia.
Qed.

Lemma scaled_ramp_values_witness :
  fields (getScaledRamp 200)
  = ["0"; "9"; "19"; "29"; "39"; "56"; "66"; "78"]%string
  /\ map parse_int (fields (getScaledRamp 200))
     = map Some [0; 9; 19; 29; 39; 56; 66; 78].
Proof.
  destruct scaled_ramp_values as (Hramp & _ & _).
  destruct (Hramp 200 ltac:(lia)) as (_ & Hfields & Hvalues & _).
  split; [exact Hfields | exact Hvalues].
Defined.

(** ** The table and its two loops *)

Lemma LightType_eqb_eq (a b : LightType) :
  LightType_eqb a b = true <-> a = b.
Proof.
  destruct a, b; cbn; split; intros H;
    try reflexivity; try discriminate.
  - apply Z.eqb_eq in H. now subst.
  - inversion H. apply Z.eqb_refl.
Qed.

Lemma LightType_eqb_neq (a b : LightType) :
  LightType_eqb a b = false <-> a <> b.
Proof.
  rewrite <- LightType_eqb_eq.
  destruct (LightType_eqb a b); intuition congruence.
Qed.

Lemma LightStateHandler_eqb_eq (a b : LightStateHandler) :
  LightStateHandler_eqb a b = true <-> a = b.
Proof. destruct a, b; cbn; split; intros H; congruence. Qed.

Lemma store_same (type : LightType) (state : HwLightState) (b : LightBackend) :
  LightBackend.type b = type ->
  store type state b
  = LightBackend.mk type state (LightBackend.handler b).
Proof.
  intros <-. unfold store.
  now rewrite (proj2 (LightType_eqb_eq _ _) eq_refl).
Qed.

Lemma store_other (type : LightType) (state : HwLightState) (b : LightBackend) :
  LightBackend.type b <> type -> store type state b = b.
Proof.
  intros H. unfold store.
  now rewrite (proj2 (LightType_eqb_neq _ _) H).
Qed.

Lemma store_signature (type : LightType) (state : HwLightState)
  (b : LightBackend) :
  LightBackend.type (store type state b) = LightBackend.type b
  /\ LightBackend.handler (store type state b) = LightBackend.handler b.
Proof.
  unfold store.
  destruct (LightType_eqb (LightBackend.type b) type); split; reflexivity.
Qed.

Lemma store_twice (type : LightType) (state : HwLightState)
  (b : LightBackend) :
  store type state (store type state b) = store type state b.
Proof.
  unfold store at 2.
  destruct (LightType_eqb (LightBackend.type b) type) eqn:E.
  - unfold store. cbn. now rewrite E.
  - unfold store. now rewrite E.
Qed.

(** The first loop maps [store] over the table and returns the handler of
    the last entry of the requested type. *)
Lemma update_backends_spec (type : LightType) (state : HwLightState)
  (bs : list LightBackend) (handler : option LightStateHandler) :
  update_backends type state handler bs
  = (map (store type state) bs,
     fold_left (fun found b =>
                  if LightType_eqb (LightBackend.type b) type
                  then Some (LightBackend.handler b) else found)
       bs handler).
Proof.
  revert handler.
  induction bs as [| backend rest IH]; intros handler; [reflexivity |].
  cbn [update_backends map fold_left]. unfold store at 1.
  destruct (LightType_eqb (LightBackend.type backend) type);
    rewrite IH; reflexivity.
Qed.

(** The second loop renders the preferred entry, if there is one. *)
Lemma light_up_spec (handler : LightStateHandler) (bs : list LightBackend) :
  light_up handler bs
  = option_map (fun winner => call handler (LightBackend.state winner))
      (first_lit handler bs).
Proof.
  unfold first_lit.
  induction bs as [| backend rest IH]; [reflexivity |].
  cbn [light_up find]. unfold competes at 1.
  destruct (LightStateHandler_eqb handler (LightBackend.handler backend)
            && isLit (LightBackend.state backend)); [reflexivity | exact IH].
Qed.

Lemma signature_store (type : LightType) (state : HwLightState)
  (bs : list LightBackend) :
  signature (map (store type state) bs) = signature bs.
Proof.
  unfold signature. rewrite map_map. apply map_ext. intros b.
  destruct (store_signature type state b) as [-> ->]. reflexivity.
Qed.

Lemma well_formed_store (type : LightType) (state : HwLightState)
  (bs : list LightBackend) :
  well_formed bs -> well_formed (map (store type state) bs).
Proof. unfold well_formed. now rewrite signature_store. Qed.

Lemma well_formed_backends (init : HwLightState) : well_formed (backends init).
Proof. reflexivity. Qed.

(** A well-formed table is the initial one up to the five stored states. *)
Lemma well_formed_inv (bs : list LightBackend) :
  well_formed bs ->
  exists s0 s1 s2 s3 s4,
    bs = [ LightBackend.mk ATTENTION s0 fn_handleNotification;
           LightBackend.mk NOTIFICATIONS s1 fn_handleNotification;
           LightBackend.mk BATTERY s2 fn_handleNotification;
           LightBackend.mk BACKLIGHT s3 fn_handleBacklight;
           LightBackend.mk BUTTONS s4 fn_handleButtons ].
Proof.
  unfold well_formed, signature. intros H.
  do 5 (destruct bs as [| [? ? ?] bs]; [discriminate H |]).
  destruct bs; [| discriminate H].
  cbn in H. inversion H; subst. now eexists _, _, _, _, _.
Qed.

Lemma well_formed_types (bs : list LightBackend) :
  well_formed bs -> map LightBackend.type bs = supported.
Proof.
  intros H. apply well_formed_inv in H as (s0 & s1 & s2 & s3 & s4 & ->).
  reflexivity.
Qed.

Lemma well_formed_class_handler (bs : list LightBackend) (b : LightBackend) :
  well_formed bs -> In b bs ->
  class_handler (LightBackend.type b) = Some (LightBackend.handler b).
Proof.
  intros H Hin. apply well_formed_inv in H as (s0 & s1 & s2 & s3 & s4 & ->).
  repeat (destruct Hin as [<- | Hin]; [reflexivity |]). destruct Hin.
Qed.

Lemma class_handler_supported (type : LightType) (handler : LightStateHandler) :
  class_handler type = Some handler -> In type supported.
Proof.
  destruct type; cbn; intros H; try discriminate; tauto.
Qed.

Lemma supported_class_handler (type : LightType) :
  In type supported -> exists handler, class_handler type = Some handler.
Proof.
  intros Hin. unfold supported in Hin.
  repeat (destruct Hin as [<- | Hin]; [now eexists |]). destruct Hin.
Qed.

Lemma update_backends_handler (type : LightType) (state : HwLightState)
  (bs : list LightBackend) :
  well_formed bs ->
  snd (update_backends type state None bs) = class_handler type.
Proof.
  intros H. apply well_formed_inv in H as (s0 & s1 & s2 & s3 & s4 & ->).
  rewrite update_backends_spec. destruct type; reflexivity.
Qed.

(** What a call does, in terms of [store] and [first_lit]. *)
Lemma setLightState_supported (cast : Z -> LightType) (id : Z)
  (state : HwLightState) (bs : list LightBackend)
  (handler : LightStateHandler) :
  well_formed bs -> class_handler (cast id) = Some handler ->
  setLightState cast id state bs
  = (ok, map (store (cast id) state) bs,
     match first_lit handler (map (store (cast id) state) bs) with
     | Some winner => call handler (LightBackend.state winner)
     | None => call handler state
     end).
Proof.
  intros Hwf Hclass. unfold setLightState.
  pose proof (update_backends_handler (cast id) state bs Hwf) as Hhandler.
  rewrite update_backends_spec in Hhandler |- *. cbn [snd] in Hhandler.
  rewrite Hhandler, Hclass, light_up_spec.
  destruct (first_lit handler (map (store (cast id) state) bs)); reflexivity.
Qed.

Lemma setLightState_unsupported (cast : Z -> LightType) (id : Z)
  (state : HwLightState) (bs : list LightBackend) :
  well_formed bs -> ~ In (cast id) supported ->
  setLightState cast id state bs
  = (fromExceptionCode EX_UNSUPPORTED_OPERATION, bs, []).
Proof.
  intros Hwf Hnot. unfold setLightState.
  pose proof (update_backends_handler (cast id) state bs Hwf) as Hhandler.
  rewrite update_backends_spec in Hhandler |- *. cbn [snd] in Hhandler.
  rewrite Hhandler.
  destruct (class_handler (cast id)) as [handler |] eqn:Hclass.
  - apply class_handler_supported in Hclass. contradiction.
  - f_equal. f_equal. rewrite <- (map_id bs) at 2.
    apply map_ext_in. intros b Hin. apply store_other. intros Heq.
    apply Hnot. rewrite <- Heq, <- (well_formed_types bs Hwf).
    now apply in_map.
Qed.

Lemma setLightState_well_formed (cast : Z -> LightType) (id : Z)
  (state : HwLightState) (bs : list LightBackend) :
  well_formed bs -> well_formed (table_of (setLightState cast id state bs)).
Proof.
  intros Hwf.
  destruct (class_handler (cast id)) as [handler |] eqn:Hclass.
  - rewrite (setLightState_supported cast id state bs handler Hwf Hclass).
    now apply well_formed_store.
  - rewrite setLightState_unsupported; [assumption | assumption |].
    intros Hin. apply supported_class_handler in Hin as [h Hh]. congruence.
Qed.

Lemma replay_well_formed (cast : Z -> LightType)
  (calls : list (Z * HwLightState)) (bs : list LightBackend) :
  well_formed bs -> well_formed (fst (replay cast calls bs)).
Proof.
  revert bs. induction calls as [| [id state] calls IH]; intros bs Hwf.
  - exact Hwf.
  - cbn [replay].
    pose proof (setLightState_well_formed cast id state bs Hwf) as Hnext.
    destruct (setLightState cast id state bs) as [[status bs'] trace].
    cbn [table_of fst snd] in Hnext. specialize (IH bs' Hnext).
    destruct (replay cast calls bs') as [bs'' trace']. exact IH.
Qed.

(** ** The service *)

(** C6. A call whose identifier denotes none of ATTENTION, NOTIFICATIONS,
    BATTERY, BACKLIGHT, BUTTONS returns the unsupported-operation status,
    calls no handler and writes no attribute, and leaves the table, hence
    every stored state, exactly as it was. *)
Theorem unsupported_class_rejected :
  forall (cast : Z -> LightType) (id : Z) (state : HwLightState)
         (bs : list LightBackend),
    well_formed bs ->
    ~ In (cast id) supported ->
    let result := setLightState cast id state bs in
    status_of result = fromExceptionCode EX_UNSUPPORTED_OPERATION
    /\ trace_of result = []
    /\ table_of result = bs
    /\ forall type, stored type (table_of result) = stored type bs.
Proof.
  intros cast id state bs Hwf Hnot result. unfold result.
  rewrite (setLightState_unsupported cast id state bs Hwf Hnot).
  repeat split.
Qed.

Lemma unsupported_class_rejected_witness :
  let result :=
    setLightState hal_LightType_of_int 7 (solid 0xFFFFFFFF) (backends dark) in
  status_of result = fromExceptionCode EX_UNSUPPORTED_OPERATION
  /\ trace_of result = []
  /\ table_of result = backends dark
  /\ forall type, stored type (table_of result) = stored type (backends dark).
Proof.
  apply (unsupported_class_rejected hal_LightType_of_int 7 (solid 0xFFFFFFFF)
           (backends dark)).
  - reflexivity.
  - cbn. intros H. repeat (destruct H as [H | H]; [discriminate H |]).
    exact H.
Defined.

Lemma getLights_loop_well_formed (to_int : LightType -> Z)
  (bs : list LightBackend) (lights : list HwLight.t) :
  well_formed bs ->
  getLights_loop to_int bs 0 lights
  = lights ++ [ HwLight.mk (to_int ATTENTION) ATTENTION 0;
                HwLight.mk (to_int NOTIFICATIONS) NOTIFICATIONS 1;
                HwLight.mk (to_int BATTERY) BATTERY 2;
                HwLight.mk (to_int BACKLIGHT) BACKLIGHT 3;
                HwLight.mk (to_int BUTTONS) BUTTONS 4 ].
Proof.
  intros H. apply well_formed_inv in H as (s0 & s1 & s2 & s3 & s4 & ->).
  cbn [getLights_loop LightBackend.type].
  rewrite <- !app_assoc. reflexivity.
Qed.

Example getLights_hal_numbering :
  getLights hal_int_of_LightType [] (backends dark)
  = (ok, [ HwLight.mk 5 ATTENTION 0; HwLight.mk 4 NOTIFICATIONS 1;
           HwLight.mk 3 BATTERY 2; HwLight.mk 0 BACKLIGHT 3;
           HwLight.mk 2 BUTTONS 4 ]).
Proof. reflexivity. Qed.

(** C9. After any history of [setLightState] calls, [getLights] succeeds
    and adds to the caller's (empty) vector exactly five entries: the types
    ATTENTION, NOTIFICATIONS, BATTERY, BACKLIGHT, BUTTONS in this order,
    with ordinals 0, 1, 2, 3, 4. The stored states play no part. *)
Theorem getLights_fixed_enumeration :
  forall (cast : Z -> LightType) (to_int : LightType -> Z)
         (init : HwLightState) (calls : list (Z * HwLightState)),
    let bs := fst (replay cast calls (backends init)) in
    let result := getLights to_int [] bs in
    fst result = ok
    /\ map (fun l => (HwLight.type l, HwLight.ordinal l)) (snd result)
       = [ (ATTENTION, 0); (NOTIFICATIONS, 1); (BATTERY, 2);
           (BACKLIGHT, 3); (BUTTONS, 4) ]
    /\ map HwLight.id (snd result) = map to_int supported
    /\ result = getLights to_int [] (backends init)
    /\ forall lights,
         getLights to_int lights bs = (ok, lights ++ snd result).
Proof.
  intros cast to_int init calls bs result.
  assert (Hwf : well_formed bs)
    by (apply replay_well_formed, well_formed_backends).
  unfold result, getLights.
  rewrite (getLights_loop_well_formed to_int bs [] Hwf).
  repeat split. intros lights.
  now rewrite (getLights_loop_well_formed to_int bs lights Hwf).
Qed.

Lemma stored_store_other (type other : LightType) (state : HwLightState)
  (bs : list LightBackend) :
  other <> type ->
  stored other (map (store type state) bs) = stored other bs.
Proof.
  intros Hneq. unfold stored.
  induction bs as [| b bs IH]; [reflexivity |].
  cbn [map find].
  destruct (store_signature type state b) as [Htype _]. rewrite Htype.
  destruct (LightType_eqb (LightBackend.type b) other) eqn:E.
  - apply LightType_eqb_eq in E. rewrite store_other by congruence.
    reflexivity.
  - exact IH.
Qed.

Lemma stored_store_same (type : LightType) (state : HwLightState)
  (bs : list LightBackend) :
  In type (map LightBackend.type bs) ->
  stored type (map (store type state) bs) = Some state.
Proof.
  unfold stored. induction bs as [| b bs IH]; intros Hin; [destruct Hin |].
  cbn [map find].
  destruct (store_signature type state b) as [Htype _]. rewrite Htype.
  destruct (LightType_eqb (LightBackend.type b) type) eqn:E.
  - apply LightType_eqb_eq in E. now rewrite store_same.
  - apply LightType_eqb_neq in E. destruct Hin as [Hin | Hin]; [congruence |].
    now apply IH.
Qed.

(** C10. A successful call for a supported class changes nothing in the
    table but the stored state of the one entry of that class: the table
    has exactly one such entry, it keeps its class tag and handler and now
    stores the given state, and every other entry, with its class tag,
    handler and stored state, is as before. *)
Theorem setLightState_frame :
  forall (cast : Z -> LightType) (id : Z) (state : HwLightState)
         (bs : list LightBackend),
    well_formed bs ->
    In (cast id) supported ->
    let result := setLightState cast id state bs in
    let bs' := table_of result in
    status_of result = ok
    /\ signature bs' = signature bs
    /\ List.length
         (filter (fun b => LightType_eqb (LightBackend.type b) (cast id)) bs)
       = 1%nat
    /\ (forall i b, nth_error bs i = Some b ->
          LightBackend.type b <> cast id -> nth_error bs' i = Some b)
    /\ (forall i b, nth_error bs i = Some b ->
          LightBackend.type b = cast id ->
          nth_error bs' i
          = Some (LightBackend.mk (LightBackend.type b) state
                    (LightBackend.handler b)))
    /\ stored (cast id) bs' = Some state
    /\ (forall other, other <> cast id -> stored other bs' = stored other bs).
Proof.
  intros cast id state bs Hwf Hin result bs'. unfold bs', result.
  destruct (supported_class_handler (cast id) Hin) as [handler Hclass].
  rewrite (setLightState_supported cast id state bs handler Hwf Hclass).
  cbn [status_of table_of fst snd].
  split; [reflexivity |]. split; [apply signature_store |].
  split.
  { pose proof (well_formed_inv bs Hwf) as (s0 & s1 & s2 & s3 & s4 & ->).
    unfold supported in Hin.
    repeat (destruct Hin as [<- | Hin]; [reflexivity |]). destruct Hin. }
  split.
  { intros i b Hnth Hother. rewrite nth_error_map, Hnth. cbn.
    now rewrite store_other. }
  split.
  { intros i b Hnth Hsame. rewrite nth_error_map, Hnth. cbn.
    rewrite store_same by assumption. now rewrite Hsame. }
  split.
  { apply stored_store_same. now rewrite (well_formed_types bs Hwf). }
  intros other Hother. now apply stored_store_other.
Qed.

Lemma setLightState_frame_witness :
  let bs := backends dark in
  let result := setLightState hal_LightType_of_int 3 (solid 0xFFFF0000) bs in
  status_of result = ok
  /\ stored BATTERY (table_of result) = Some (solid 0xFFFF0000)
  /\ stored ATTENTION (table_of result) = Some dark
  /\ signature (table_of result) = signature bs.
Proof.
  pose proof (setLightState_frame hal_LightType_of_int 3 (solid 0xFFFF0000)
                (backends dark) ltac:(reflexivity)
                ltac:(cbn; tauto)) as H.
  cbv zeta in H.
  destruct H as (Hok & Hsig & _ & _ & _ & Hsame & Hothers).
  split; [exact Hok |]. split; [exact Hsame |]. split; [| exact Hsig].
  rewrite (Hothers ATTENTION) by discriminate. reflexivity.
Defined.

(** ** Arbitration *)

Lemma handler_calls_run (handler : LightStateHandler) (state : HwLightState) :
  handler_calls (run handler state) = [].
Proof.
  destruct handler; cbn [run]; try reflexivity.
  unfold handleNotification.
  destruct (FlashMode_eqb (flashMode state) TIMED); [| reflexivity].
  cbv zeta.
  destruct (sub_i32 (flashOnMs state)
              (mul_i32 (mul_i32 RAMP_STEP_DURATION RAMP_STEPS) 2) <? 0);
    reflexivity.
Qed.

Lemma handler_calls_call (handler : LightStateHandler) (state : HwLightState) :
  handler_calls (call handler state) = [(handler, state)].
Proof.
  unfold call. cbn [handler_calls flat_map].
  change (flat_map _ (run handler state))
    with (handler_calls (run handler state)).
  now rewrite handler_calls_run.
Qed.

(** An unlit state has brightness 0 in every range. *)
Lemma unlit_brightness (state : HwLightState) :
  isLit state = false -> getBrightness state = 0.
Proof.
  unfold isLit. intros H. apply negb_false_iff, Z.eqb_eq in H.
  change 16777215 with (Z.ones 24) in H. rewrite Z.land_ones in H by lia.
  rewrite (getBrightness_shifted state (color state) 0) by ring.
  pose proof (Z.div_mod (color state) (2 ^ 24) ltac:(lia)) as Hk.
  rewrite H, Z.add_0_r in Hk.
  set (k := color state / 2 ^ 24) in Hk.
  unfold spec_luma.
  assert (H16 : (color state / 2 ^ 16) mod 256 = 0).
  { rewrite Hk. replace (2 ^ 24 * k) with (k * 256 * 2 ^ 16) by ring.
    rewrite Z.div_mul by lia. apply Z.mod_mul. lia. }
  assert (H8 : (color state / 2 ^ 8) mod 256 = 0).
  { rewrite Hk. replace (2 ^ 24 * k) with (k * 256 * 256 * 2 ^ 8) by ring.
    rewrite Z.div_mul by lia. apply Z.mod_mul. lia. }
  assert (H0 : color state mod 256 = 0).
  { rewrite Hk. replace (2 ^ 24 * k) with (k * 65536 * 256) by ring.
    apply Z.mod_mul. lia. }
  rewrite H16, H8, H0. unfold spec_dim.
  destruct ((color state / 2 ^ 24) mod 256 =? 255); reflexivity.
Qed.

Lemma unlit_scaled_brightness (state : HwLightState) (maxBrightness : Z) :
  isLit state = false -> getScaledBrightness state maxBrightness = 0.
Proof.
  intros H. unfold getScaledBrightness, scaleBrightness, mul_u32.
  rewrite (unlit_brightness state H). reflexivity.
Qed.

Lemma competes_false (handler : LightStateHandler) (b : LightBackend) :
  (LightBackend.handler b = handler ->
   isLit (LightBackend.state b) = false) ->
  competes handler b = false.
Proof.
  intros H. unfold competes.
  destruct (LightStateHandler_eqb handler (LightBackend.handler b)) eqn:E;
    [| reflexivity].
  apply LightStateHandler_eqb_eq in E. cbn. apply H. now symmetry.
Qed.

Lemma competes_true (handler : LightStateHandler) (b : LightBackend) :
  LightBackend.handler b = handler ->
  isLit (LightBackend.state b) = true ->
  competes handler b = true.
Proof.
  intros <- Hlit. unfold competes.
  now rewrite (proj2 (LightStateHandler_eqb_eq _ _) eq_refl), Hlit.
Qed.

Lemma find_first {A : Type} (p : A -> bool) (pre post : list A) (x : A) :
  (forall y, In y pre -> p y = false) -> p x = true ->
  find p (pre ++ x :: post) = Some x.
Proof.
  intros Hpre Hx. induction pre as [| y pre IH]; cbn.
  - now rewrite Hx.
  - rewrite (Hpre y) by now left. apply IH. intros z Hz. apply Hpre.
    now right.
Qed.

Lemma well_formed_unique (pre post : list LightBackend)
  (entry b : LightBackend) :
  well_formed (pre ++ entry :: post) -> In b pre ->
  LightBackend.type b <> LightBackend.type entry.
Proof.
  intros Hwf Hin Heq.
  pose proof (well_formed_types _ Hwf) as Htypes.
  assert (Hnodup : NoDup supported)
    by (unfold supported; repeat constructor; cbn; intuition discriminate).
  rewrite <- Htypes, map_app in Hnodup. cbn [map] in Hnodup.
  apply NoDup_remove_2 in Hnodup. apply Hnodup.
  apply in_or_app. left. rewrite <- Heq. now apply in_map.
Qed.

(** What each handler writes for an unlit state: brightness 0 on its
    attributes; the notification handler in TIMED mode writes the blink
    program with the all-zero ramp instead. *)
Lemma writes_run_unlit (handler : LightStateHandler) (state : HwLightState) :
  isLit state = false ->
  match handler with
  | fn_handleBacklight =>
      writes (run handler state)
      = [("/sys/class/leds/lcd-backlight/brightness", "0")]
  | fn_handleButtons =>
      writes (run handler state)
      = [ ("/sys/class/leds/button-backlight/brightness", "0");
          ("/sys/class/leds/button-backlight1/brightness", "0") ]
  | fn_handleNotification =>
      match flashMode state with
      | TIMED =>
          exists pauseLo pauseHi rampStep : string,
            writes (run handler state)
            = [ ("/sys/class/leds/white/blink", "0");
                ("/sys/class/leds/white/start_idx", "0");
                ("/sys/class/leds/white/duty_pcts", "0,0,0,0,0,0,0,0");
                ("/sys/class/leds/white/pause_lo", pauseLo);
                ("/sys/class/leds/white/pause_hi", pauseHi);
                ("/sys/class/leds/white/ramp_step_ms", rampStep);
                ("/sys/class/leds/white/blink", "1") ]
      | _ =>
          writes (run handler state)
          = [ ("/sys/class/leds/white/blink", "0");
              ("/sys/class/leds/white/brightness", "0") ]
      end
  end%string.
Proof.
  intros Hunlit. destruct handler; cbn [run].
  - unfold handleBacklight, set_int, set.
    rewrite (unlit_scaled_brightness state _ Hunlit). reflexivity.
  - unfold handleButtons, set_int, set.
    rewrite (unlit_scaled_brightness state _ Hunlit). reflexivity.
  - destruct (flashMode state) eqn:Hmode.
    + rewrite handleNotification_static by congruence.
      rewrite (unlit_scaled_brightness state _ Hunlit). reflexivity.
    + rewrite (handleNotification_timed state Hmode). cbv zeta.
      rewrite (unlit_scaled_brightness state _ Hunlit).
      eexists _, _, _. reflexivity.
    + rewrite handleNotification_static by congruence.
      rewrite (unlit_scaled_brightness state _ Hunlit). reflexivity.
Qed.

(** C2. When, once the request is stored, no entry with the handler of the
    updated class is lit, the call succeeds and calls that handler exactly
    once, on the state just written. That state is then unlit, every
    brightness derived from it is 0, and the call drives the hardware off:
    it writes 0 to the backlight brightness, or 0 to both button
    brightnesses, or, for the notification handler, blink 0 followed by
    brightness 0 (in TIMED mode: by the blink program with the all-zero
    duty ramp and blink 1). Calling again with the same state gives the
    same table, the same render with the same writes, and the same
    status. *)
Theorem nothing_lit_renders_request :
  forall (cast : Z -> LightType) (id : Z) (state : HwLightState)
         (bs : list LightBackend) (handler : LightStateHandler),
    well_formed bs ->
    class_handler (cast id) = Some handler ->
    let result := setLightState cast id state bs in
    first_lit handler (table_of result) = None ->
    status_of result = ok
    /\ trace_of result = call handler state
    /\ handler_calls (trace_of result) = [(handler, state)]
    /\ isLit state = false
    /\ (forall maxBrightness, getScaledBrightness state maxBrightness = 0)
    /\ match handler with
       | fn_handleBacklight =>
           writes (trace_of result)
           = [("/sys/class/leds/lcd-backlight/brightness", "0")]
       | fn_handleButtons =>
           writes (trace_of result)
           = [ ("/sys/class/leds/button-backlight/brightness", "0");
               ("/sys/class/leds/button-backlight1/brightness", "0") ]
       | fn_handleNotification =>
           match flashMode state with
           | TIMED =>
               exists pauseLo pauseHi rampStep : string,
                 writes (trace_of result)
                 = [ ("/sys/class/leds/white/blink", "0");
                     ("/sys/class/leds/white/start_idx", "0");
                     ("/sys/class/leds/white/duty_pcts", "0,0,0,0,0,0,0,0");
                     ("/sys/class/leds/white/pause_lo", pauseLo);
                     ("/sys/class/leds/white/pause_hi", pauseHi);
                     ("/sys/class/leds/white/ramp_step_ms", rampStep);
                     ("/sys/class/leds/white/blink", "1") ]
           | _ =>
               writes (trace_of result)
               = [ ("/sys/class/leds/white/blink", "0");
                   ("/sys/class/leds/white/brightness", "0") ]
           end
       end%string
    /\ setLightState cast id state (table_of result) = result
    /\ (forall n : nat,
          replay cast (repeat (id, state) n) (table_of result)
          = (table_of result, List.concat (repeat (call handler state) n))).
Proof.
  intros cast id state bs handler Hwf Hclass result. unfold result.
  rewrite (setLightState_supported cast id state bs handler Hwf Hclass).
  cbn [status_of table_of trace_of fst snd]. intros Hnone. rewrite Hnone.
  assert (Hunlit : isLit state = false).
  { pose proof (class_handler_supported _ _ Hclass) as Hin.
    rewrite <- (well_formed_types bs Hwf) in Hin.
    apply in_map_iff in Hin as (entry & Htype & Hentry).
    pose proof (well_formed_class_handler bs entry Hwf Hentry) as Hh.
    assert (Hhandler : LightBackend.handler entry = handler) by congruence.
    pose proof (find_none _ _ Hnone (store (cast id) state entry)
                  (in_map _ _ _ Hentry)) as Hlose.
    rewrite store_same, Hhandler in Hlose by assumption.
    unfold competes in Hlose. cbn in Hlose.
    now rewrite (proj2 (LightStateHandler_eqb_eq _ _) eq_refl) in Hlose. }
  split; [reflexivity |]. split; [reflexivity |].
  split; [apply handler_calls_call |]. split; [assumption |].
  split; [intros m; now apply unlit_scaled_brightness |].
  split.
  { change (writes (call handler state)) with (writes (run handler state)).
    exact (writes_run_unlit handler state Hunlit). }
  assert (Hagain :
    setLightState cast id state (map (store (cast id) state) bs)
    = (ok, map (store (cast id) state) bs, call handler state)).
  { rewrite (setLightState_supported cast id state _ handler
               (well_formed_store _ _ _ Hwf) Hclass).
    rewrite map_map, (map_ext _ _ (store_twice (cast id) state)).
    now rewrite Hnone. }
  split; [exact Hagain |].
  induction n as [| n IH]; [reflexivity |].
  cbn [repeat replay List.concat]. now rewrite Hagain, IH.
Qed.

Lemma nothing_lit_renders_request_witness :
  let result := setLightState hal_LightType_of_int 4 dark (backends dark) in
  trace_of result = call fn_handleNotification dark
  /\ isLit dark = false
  /\ writes (trace_of result)
     = [ ("/sys/class/leds/white/blink", "0");
         ("/sys/class/leds/white/brightness", "0") ]%string
  /\ setLightState hal_LightType_of_int 4 dark (table_of result) = result.
Proof.
  pose proof (nothing_lit_renders_request hal_LightType_of_int 4
                dark (backends dark)
                fn_handleNotification ltac:(reflexivity) ltac:(reflexivity)
                ltac:(reflexivity)) as H.
  cbv zeta in H.
  destruct H as (_ & Htrace & _ & Hunlit & _ & Hwrites & Hagain & _).
  split; [exact Htrace |]. split; [exact Hunlit |].
  split; [exact Hwrites | exact Hagain].
Defined.

(** C1, as the specification words it for every pair of classes sharing a
    handler, fails when a third class of the group is lit. With ATTENTION
    lit red and BATTERY lit green, lighting NOTIFICATIONS blue renders
    ATTENTION's red, not the blue of the class above BATTERY; and with
    NOTIFICATIONS and BATTERY lit, clearing ATTENTION renders
    NOTIFICATIONS, not the still-lit BATTERY below ATTENTION. *)
Lemma higher_sibling_not_always_rendered :
  let red := solid 0xFFFF0000 in
  let green := solid 0xFF00FF00 in
  let blue := solid 0xFF0000FF in
  let cast := hal_LightType_of_int in
  let bs := fst (replay cast [(5, red); (3, green)] (backends dark)) in
  let raised := setLightState cast 4 blue bs in
  let cleared := setLightState cast 5 dark (table_of raised) in
  class_handler NOTIFICATIONS = class_handler BATTERY
  /\ class_handler ATTENTION = class_handler BATTERY
  /\ stored BATTERY bs = Some green
  /\ isLit green = true /\ isLit blue = true /\ isLit dark = false
  /\ handler_calls (trace_of raised) = [(fn_handleNotification, red)]
  /\ handler_calls (trace_of raised) <> [(fn_handleNotification, blue)]
  /\ stored BATTERY (table_of raised) = Some green
  /\ handler_calls (trace_of cleared) = [(fn_handleNotification, blue)]
  /\ handler_calls (trace_of cleared) <> [(fn_handleNotification, green)].
Proof. vm_compute. repeat split; discriminate. Qed.

(** C1, amended. The state rendered by a call is always that of the first
    entry, in table order, whose handler is the updated class's handler
    and whose state is lit. Hence lighting a class renders its own state
    provided no class before it in the table with the same handler is lit;
    and storing an unlit state for a class renders the stored state of a
    lit class with the same handler, in that same call, provided no other
    class with that handler before the lit one is lit. *)
Theorem priority_arbitration :
  (forall (cast : Z -> LightType) (id : Z) (state : HwLightState)
          (bs : list LightBackend) (handler : LightStateHandler)
          (winner : LightBackend),
      well_formed bs ->
      class_handler (cast id) = Some handler ->
      let result := setLightState cast id state bs in
      first_lit handler (table_of result) = Some winner ->
      status_of result = ok
      /\ trace_of result = call handler (LightBackend.state winner)
      /\ handler_calls (trace_of result)
         = [(handler, LightBackend.state winner)])
  /\ (forall (cast : Z -> LightType) (id : Z) (state : HwLightState)
             (pre post : list LightBackend) (entry : LightBackend)
             (handler : LightStateHandler),
         well_formed (pre ++ entry :: post) ->
         class_handler (cast id) = Some handler ->
         LightBackend.type entry = cast id ->
         (forall b, In b pre -> LightBackend.handler b = handler ->
                    isLit (LightBackend.state b) = false) ->
         isLit state = true ->
         handler_calls
           (trace_of (setLightState cast id state (pre ++ entry :: post)))
         = [(handler, state)])
  /\ (forall (cast : Z -> LightType) (id : Z) (state : HwLightState)
             (pre post : list LightBackend) (lower : LightBackend)
             (handler : LightStateHandler),
         well_formed (pre ++ lower :: post) ->
         class_handler (cast id) = Some handler ->
         LightBackend.type lower <> cast id ->
         LightBackend.handler lower = handler ->
         isLit (LightBackend.state lower) = true ->
         (forall b, In b pre -> LightBackend.type b <> cast id ->
                    LightBackend.handler b = handler ->
                    isLit (LightBackend.state b) = false) ->
         isLit state = false ->
         handler_calls
           (trace_of (setLightState cast id state (pre ++ lower :: post)))
         = [(handler, LightBackend.state lower)]).
Proof.
  split; [| split].
  - intros cast id state bs handler winner Hwf Hclass result. unfold result.
    rewrite (setLightState_supported cast id state bs handler Hwf Hclass).
    cbn [status_of table_of trace_of fst snd]. intros ->.
    split; [reflexivity |]. split; [reflexivity |].
    apply handler_calls_call.
  - intros cast id state pre post entry handler Hwf Hclass Htype Hpre Hlit.
    rewrite (setLightState_supported cast id state _ handler Hwf Hclass).
    cbn [trace_of snd]. unfold first_lit.
    rewrite map_app. cbn [map].
    assert (Hhandler : LightBackend.handler entry = handler).
    { pose proof (well_formed_class_handler _ entry Hwf
                    ltac:(apply in_or_app; right; now left)) as Hh.
      congruence. }
    rewrite (find_first _ _ _ (store (cast id) state entry)).
    + rewrite store_same by assumption. apply handler_calls_call.
    + intros b Hb. apply in_map_iff in Hb as (b0 & <- & Hb0).
      rewrite store_other
        by (rewrite <- Htype; now apply (well_formed_unique pre post)).
      apply competes_false. now apply Hpre.
    + rewrite store_same by assumption. now apply competes_true.
  - intros cast id state pre post lower handler Hwf Hclass Htype Hhandler
      Hlit Hpre Hunlit.
    rewrite (setLightState_supported cast id state _ handler Hwf Hclass).
    cbn [trace_of snd]. unfold first_lit.
    rewrite map_app. cbn [map].
    rewrite (find_first _ _ _ (store (cast id) state lower)).
    + rewrite store_other by assumption. apply handler_calls_call.
    + intros b Hb. apply in_map_iff in Hb as (b0 & <- & Hb0).
      destruct (LightType_eqb (LightBackend.type b0) (cast id)) eqn:E.
      * apply LightType_eqb_eq in E. rewrite store_same by assumption.
        apply competes_false. intros _. exact Hunlit.
      * apply LightType_eqb_neq in E. rewrite store_other by assumption.
        apply competes_false. now apply Hpre.
    + rewrite store_other by assumption. now apply competes_true.
Qed.

Lemma priority_arbitration_witness :
  let green := solid 0xFF00FF00 in
  let blue := solid 0xFF0000FF in
  let cast := hal_LightType_of_int in
  let bs := fst (replay cast [(3, green)] (backends dark)) in
  let raised := setLightState cast 4 blue bs in
  let cleared := setLightState cast 4 dark (table_of raised) in
  trace_of raised = call fn_handleNotification blue
  /\ handler_calls (trace_of raised) = [(fn_handleNotification, blue)]
  /\ handler_calls (trace_of cleared) = [(fn_handleNotification, green)].
Proof.
  cbv zeta.
  destruct priority_arbitration as (Hgeneral & Hraise & Hfallback).
  split; [| split].
  - apply (Hgeneral hal_LightType_of_int 4 (solid 0xFF0000FF)
             (fst (replay hal_LightType_of_int [(3, solid 0xFF00FF00)]
                     (backends dark)))
             fn_handleNotification
             (LightBackend.mk NOTIFICATIONS (solid 0xFF0000FF)
                fn_handleNotification)).
    + reflexivity.
    + reflexivity.
    + reflexivity.
  - apply (Hraise hal_LightType_of_int 4 (solid 0xFF0000FF)
             [LightBackend.mk ATTENTION dark fn_handleNotification]
             [LightBackend.mk BATTERY (solid 0xFF00FF00) fn_handleNotification;
              LightBackend.mk BACKLIGHT dark fn_handleBacklight;
              LightBackend.mk BUTTONS dark fn_handleButtons]
             (LightBackend.mk NOTIFICATIONS dark fn_handleNotification)
             fn_handleNotification).
    + reflexivity.
    + reflexivity.
    + reflexivity.
    + intros b [<- | []] _. reflexivity.
    + reflexivity.
  - apply (Hfallback hal_LightType_of_int 4 dark
             [LightBackend.mk ATTENTION dark fn_handleNotification;
              LightBackend.mk NOTIFICATIONS (solid 0xFF0000FF)
                fn_handleNotification]
             [LightBackend.mk BACKLIGHT dark fn_handleBacklight;
              LightBackend.mk BUTTONS dark fn_handleButtons]
             (LightBackend.mk BATTERY (solid 0xFF00FF00) fn_handleNotification)
             fn_handleNotification).
    + reflexivity.
    + reflexivity.
    + discriminate.
    + reflexivity.
    + reflexivity.
    + intros b [<- | [<- | []]] Htype _; [reflexivity |].
      now contradiction Htype.
    + reflexivity.
Defined.

(** * Further properties of the translation *)

Lemma spec_dim_uniform (alpha channel : Z) :
  spec_dim alpha channel = channel * alpha / 255.
Proof.
  unfold spec_dim. destruct (Z.eqb_spec alpha 255) as [-> | _];
    [| reflexivity].
  now rewrite Z.div_mul by lia.
Qed.

Lemma pack_channels_rgb_range (red green blue : Z) :
  byte red -> byte green -> byte blue ->
  0 <= red * 2 ^ 16 + green * 2 ^ 8 + blue < 2 ^ 24.
Proof. unfold byte. lia. Qed.

(** The luma of a colour in terms of its components; the branch taken for
    alpha 0xFF agrees with the dimming formula. *)
Lemma spec_luma_channels (alpha red green blue : Z) :
  byte alpha -> byte red -> byte green -> byte blue ->
  spec_luma (pack_channels alpha red green blue)
  = (77 * (red * alpha / 255) + 150 * (green * alpha / 255)
     + 29 * (blue * alpha / 255)) / 256.
Proof.
  intros Ha Hr Hg Hb. unfold spec_luma, pack_channels.
  pose proof (pack_channels_rgb_range red green blue Hr Hg Hb) as Hrgb.
  rewrite pack_argb_alpha by assumption.
  rewrite (pack_argb_channel _ _ 16), (pack_argb_channel _ _ 8) by lia.
  replace (pack_argb alpha (red * 2 ^ 16 + green * 2 ^ 8 + blue) mod 256)
    with ((red * 2 ^ 16 + green * 2 ^ 8 + blue) mod 256).
  2:{ pose proof (pack_argb_channel alpha
                   (red * 2 ^ 16 + green * 2 ^ 8 + blue) 0) as H.
      change (2 ^ 0) with 1 in H. rewrite !Z.div_1_r in H.
      symmetry. apply H. lia. }
  unfold byte in *.
  assert (Hred : ((red * 2 ^ 16 + green * 2 ^ 8 + blue) / 2 ^ 16) mod 256
                 = red).
  { replace (red * 2 ^ 16 + green * 2 ^ 8 + blue)
      with (green * 2 ^ 8 + blue + red * 2 ^ 16) by ring.
    rewrite Z.div_add, Z.div_small by lia. apply Z.mod_small. lia. }
  assert (Hgreen : ((red * 2 ^ 16 + green * 2 ^ 8 + blue) / 2 ^ 8) mod 256
                   = green).
  { replace (red * 2 ^ 16 + green * 2 ^ 8 + blue)
      with (blue + (red * 256 + green) * 2 ^ 8) by ring.
    rewrite Z.div_add, Z.div_small by lia. cbn [Z.add].
    rewrite Z.add_comm, Z_mod_plus_full. apply Z.mod_small. lia. }
  assert (Hblue : (red * 2 ^ 16 + green * 2 ^ 8 + blue) mod 256 = blue).
  { replace (red * 2 ^ 16 + green * 2 ^ 8 + blue)
      with (blue + (red * 256 + green) * 256) by ring.
    rewrite Z_mod_plus_full. apply Z.mod_small. lia. }
  rewrite Hred, Hgreen, Hblue, !spec_dim_uniform. reflexivity.
Qed.

(** X1. The scaled brightness never leaves the target range: for every
    state and every [uint32_t] maximum, the result lies between 0 and the
    maximum, also where the 32-bit product wraps. *)
Theorem scaled_brightness_within_range :
  forall (state : HwLightState) (maxBrightness : Z),
    0 <= maxBrightness < 2 ^ 32 ->
    0 <= getScaledBrightness state maxBrightness <= maxBrightness.
Proof.
  intros state m Hm.
  destruct (Z.le_gt_cases m 16843009) as [Hsmall | Hlarge].
  - apply getScaledBrightness_bound. lia.
  - unfold getScaledBrightness, scaleBrightness, mul_u32, wrap_u32.
    pose proof (Z.mod_pos_bound (getBrightness state * m) (2 ^ 32)
                  ltac:(lia)) as Hmod.
    split.
    + apply Z.div_pos; lia.
    + apply Z.le_trans with 16843009; [| lia].
      apply Z.div_le_upper_bound; lia.
Qed.

Lemma scaled_brightness_within_range_witness :
  0 <= getScaledBrightness (solid 0xFFFFFFFF) 0xFFFFFFFF <= 0xFFFFFFFF.
Proof.
  apply (scaled_brightness_within_range (solid 0xFFFFFFFF) 0xFFFFFFFF). lia.
Defined.

(** X2. The luma weights add up to 256: a grey colour (R = G = B = v) with
    alpha a has brightness v * a / 255, so with full alpha a grey level is
    its own brightness, and in the LED range it is written unchanged. *)
Theorem grey_brightness :
  forall (alpha v : Z) (mode : FlashMode) (onMs offMs : Z)
         (bmode : BrightnessMode),
    byte alpha -> byte v ->
    let grey a := argb_state (pack_channels a v v v) mode onMs offMs bmode in
    getBrightness (grey alpha) = v * alpha / 255
    /\ getBrightness (grey 0xFF) = v
    /\ getScaledBrightness (grey 0xFF) MAX_LED_BRIGHTNESS = v.
Proof.
  intros alpha v mode onMs offMs bmode Ha Hv grey. unfold grey.
  assert (Hgrey : forall a, byte a ->
            getBrightness
              (argb_state (pack_channels a v v v) mode onMs offMs bmode)
            = v * a / 255).
  { intros a Hbyte. rewrite getBrightness_spec, spec_luma_channels
      by assumption.
    replace (77 * (v * a / 255) + 150 * (v * a / 255) + 29 * (v * a / 255))
      with (v * a / 255 * 256) by ring.
    apply Z.div_mul. lia. }
  assert (Hfull : byte 0xFF) by (unfold byte; lia).
  split; [now apply Hgrey |].
  rewrite getScaledBrightness_led, (Hgrey 0xFF Hfull).
  split; apply Z.div_mul; lia.
Qed.

Lemma grey_brightness_witness :
  getBrightness (solid (pack_channels 0x80 0x40 0x40 0x40))
  = 0x40 * 0x80 / 255
  /\ getBrightness (solid (pack_channels 0xFF 0x40 0x40 0x40)) = 0x40.
Proof.
  destruct (grey_brightness 0x80 0x40 NONE 0 0 USER) as (H1 & H2 & _);
    [unfold byte; lia | unfold byte; lia |].
  split; [exact H1 | exact H2].
Defined.

Lemma div_255_mono (x y : Z) : x <= y -> x / 255 <= y / 255.
Proof. intros H. apply Z.div_le_mono; lia. Qed.

(** X3. Alpha is a dimmer and the translation is monotone: raising alpha
    or any of R, G, B never lowers the brightness, nor the value scaled
    into a range whose product stays within 32 bits. *)
Theorem brightness_monotone :
  forall (a r g b a' r' g' b' : Z) (mode : FlashMode) (onMs offMs : Z)
         (bmode : BrightnessMode) (maxBrightness : Z),
    byte a' -> byte r' -> byte g' -> byte b' ->
    0 <= a <= a' -> 0 <= r <= r' -> 0 <= g <= g' -> 0 <= b <= b' ->
    0 <= maxBrightness <= 16843009 ->
    let low := argb_state (pack_channels a r g b) mode onMs offMs bmode in
    let high := argb_state (pack_channels a' r' g' b') mode onMs offMs bmode in
    getBrightness low <= getBrightness high
    /\ getScaledBrightness low maxBrightness
       <= getScaledBrightness high maxBrightness.
Proof.
  intros a r g b a' r' g' b' mode onMs offMs bmode m
    Ha' Hr' Hg' Hb' Ha Hr Hg Hb Hm low high.
  unfold byte in *.
  assert (Hluma : getBrightness low <= getBrightness high).
  { unfold low, high.
    rewrite !getBrightness_spec, !spec_luma_channels
      by (unfold byte; lia).
    apply Z.div_le_mono; [lia |].
    pose proof (div_255_mono (r * a) (r' * a') ltac:(nia)).
    pose proof (div_255_mono (g * a) (g' * a') ltac:(nia)).
    pose proof (div_255_mono (b * a) (b' * a') ltac:(nia)).
    lia. }
  split; [exact Hluma |].
  unfold getScaledBrightness, scaleBrightness, mul_u32.
  pose proof (getBrightness_bound low). pose proof (getBrightness_bound high).
  rewrite !wrap_u32_small by nia.
  apply div_255_mono. nia.
Qed.

Lemma brightness_monotone_witness :
  getScaledBrightness
    (argb_state (pack_channels 0x7F 0x80 0x40 0x20) NONE 0 0 USER)
    MAX_LCD_BRIGHTNESS
  <= getScaledBrightness
       (argb_state (pack_channels 0xFF 0x80 0x40 0x20) NONE 0 0 USER)
       MAX_LCD_BRIGHTNESS.
Proof.
  apply (brightness_monotone 0x7F 0x80 0x40 0x20 0xFF 0x80 0x40 0x20
           NONE 0 0 USER MAX_LCD_BRIGHTNESS);
    unfold byte, MAX_LCD_BRIGHTNESS; lia.
Defined.

Lemma isLit_rgb (alpha rgb : Z) (mode : FlashMode) (onMs offMs : Z)
  (bmode : BrightnessMode) :
  0 <= rgb < 2 ^ 24 ->
  isLit (argb_state (pack_argb alpha rgb) mode onMs offMs bmode)
  = negb (rgb =? 0).
Proof.
  intros Hrgb. unfold isLit, argb_state, pack_argb; cbn [color].
  destruct (wrap_i32_shift (alpha * 2 ^ 24 + rgb)) as [q ->].
  change 0x00ffffff with (Z.ones 24). rewrite Z.land_ones by lia.
  replace (alpha * 2 ^ 24 + rgb + q * 2 ^ 32)
    with (rgb + (alpha + q * 256) * 2 ^ 24) by ring.
  rewrite Z_mod_plus_full, Z.mod_small by assumption. reflexivity.
Qed.

(** X4. Whether a state is lit depends on R, G, B alone: it is lit exactly
    when the low 24 bits of the colour are non-zero, whatever the alpha.
    Brightness does depend on alpha, so a colour with alpha 0 and non-zero
    RGB is lit and yet has brightness 0 in every range. *)
Theorem lit_ignores_alpha :
  forall (alpha rgb : Z) (mode : FlashMode) (onMs offMs : Z)
         (bmode : BrightnessMode),
    0 <= rgb < 2 ^ 24 ->
    let state a := argb_state (pack_argb a rgb) mode onMs offMs bmode in
    isLit (state alpha) = negb (rgb =? 0)
    /\ isLit (state alpha) = isLit (state 0xFF)
    /\ forall maxBrightness, getScaledBrightness (state 0) maxBrightness = 0.
Proof.
  intros alpha rgb mode onMs offMs bmode Hrgb state. unfold state.
  rewrite !isLit_rgb by assumption.
  split; [reflexivity |]. split; [reflexivity |].
  intros m. unfold getScaledBrightness, scaleBrightness, mul_u32.
  rewrite getBrightness_spec. unfold spec_luma.
  rewrite pack_argb_alpha by lia.
  rewrite !spec_dim_uniform, !Z.mul_0_r. reflexivity.
Qed.

Lemma lit_ignores_alpha_witness :
  isLit (solid (pack_argb 0 0xFFFFFF)) = true
  /\ getScaledBrightness (solid (pack_argb 0 0xFFFFFF)) MAX_LED_BRIGHTNESS = 0.
Proof.
  destruct (lit_ignores_alpha 0 0xFFFFFF NONE 0 0 USER ltac:(lia))
    as (Hlit & _ & Hdark).
  split; [exact Hlit | exact (Hdark MAX_LED_BRIGHTNESS)].
Defined.

(** * Further properties of the handlers *)

(** X5. The backlight handler writes exactly one attribute, the brightness
    of the LCD backlight, as a decimal numeral that reads back as
    luma * 4095 / 255; that value lies in 0..4095 and is 0 only when the
    luma is 0. *)
Theorem handleBacklight_writes :
  forall state : HwLightState,
    let value := getBrightness state * 4095 / 255 in
    handleBacklight state
    = [Write "/sys/class/leds/lcd-backlight/brightness" (to_string value)]
    /\ parse_int (to_string value) = Some value
    /\ 0 <= value <= 4095
    /\ (value = 0 <-> getBrightness state = 0).
Proof.
  intros state value.
  pose proof (getBrightness_bound state) as Hluma.
  assert (Hvalue : getScaledBrightness state MAX_LCD_BRIGHTNESS = value).
  { unfold getScaledBrightness, scaleBrightness, mul_u32, MAX_LCD_BRIGHTNESS.
    now rewrite wrap_u32_small by lia. }
  assert (Hrange : 0 <= value <= 4095).
  { rewrite <- Hvalue. apply getScaledBrightness_bound.
    unfold MAX_LCD_BRIGHTNESS. lia. }
  split.
  { unfold handleBacklight, set_int, set. rewrite Hvalue.
    rewrite wrap_i32_small by (unfold int32; lia). reflexivity. }
  split; [apply parse_to_string |]. split; [exact Hrange |].
  split.
  - intros Hzero.
    destruct (Z.eq_dec (getBrightness state) 0) as [E | E]; [exact E |].
    assert (1 <= value); [| lia].
    unfold value. apply Z.div_le_lower_bound; lia.
  - intros Hzero. unfold value. rewrite Hzero. reflexivity.
Qed.

(** X6. The buttons handler writes the same value to the two button
    backlights, first button-backlight then button-backlight1, and nothing
    else; the value is the luma itself, in 0..255. *)
Theorem handleButtons_writes :
  forall state : HwLightState,
    let value := getBrightness state in
    handleButtons state
    = [ Write "/sys/class/leds/button-backlight/brightness" (to_string value);
        Write "/sys/class/leds/button-backlight1/brightness"
          (to_string value) ]
    /\ parse_int (to_string value) = Some value
    /\ 0 <= value <= 255.
Proof.
  intros state value.
  pose proof (getBrightness_bound state) as Hluma.
  split; [| split; [apply parse_to_string | exact Hluma]].
  unfold handleButtons, set_int, set.
  rewrite getScaledBrightness_led.
  rewrite wrap_i32_small by (unfold int32; lia). reflexivity.
Qed.

(** X7. The blink program fits the requested on-time. For a TIMED state
    with flashOnMs >= 0 the handler writes a ramp step between 0 and 50 ms
    and a non-negative pause_hi such that the sixteen ramp steps plus the
    hold take at most flashOnMs and fall short of it by less than 16 ms;
    from 800 ms on the step is 50 and the fit is exact, and below 16 ms
    the step is 0. *)
Theorem blink_program_fits_on_time :
  forall state : HwLightState,
    flashMode state = TIMED ->
    0 <= flashOnMs state < 2 ^ 31 ->
    exists stepDuration pauseHi : Z,
      written (WHITE_LED ++ RAMP_STEP_MS) (handleNotification state)
      = [to_string stepDuration]
      /\ written (WHITE_LED ++ PAUSE_HI) (handleNotification state)
         = [to_string pauseHi]
      /\ 0 <= stepDuration <= 50
      /\ 0 <= pauseHi
      /\ 16 * stepDuration + pauseHi <= flashOnMs state
         < 16 * stepDuration + pauseHi + 16
      /\ (800 <= flashOnMs state ->
          stepDuration = 50
          /\ 16 * stepDuration + pauseHi = flashOnMs state)
      /\ (flashOnMs state < 16 -> stepDuration = 0).
Proof.
  intros state Hmode Hon.
  rewrite (handleNotification_timed state Hmode). cbv zeta.
  unfold sub_i32, div_i32.
  rewrite (wrap_i32_small (flashOnMs state - 800)) by (unfold int32; lia).
  destruct (flashOnMs state - 800 <? 0) eqn:Hneg.
  - apply Z.ltb_lt in Hneg.
    pose proof (Z.quot_rem' (flashOnMs state) 16) as Hqr.
    pose proof (Z.rem_bound_pos_pos (flashOnMs state) 16 ltac:(lia)
                  ltac:(lia)) as Hrem.
    exists (Z.quot (flashOnMs state) 16), 0.
    rewrite !(wrap_i32_small (Z.quot (flashOnMs state) 16))
      by (unfold int32; lia).
    repeat split; try reflexivity; lia.
  - apply Z.ltb_ge in Hneg.
    exists 50, (flashOnMs state - 800).
    rewrite !(wrap_i32_small (flashOnMs state - 800))
      by (unfold int32; lia).
    repeat split; try reflexivity; lia.
Qed.

Lemma blink_program_fits_on_time_witness :
  exists stepDuration pauseHi : Z,
    written (WHITE_LED ++ RAMP_STEP_MS)
      (handleNotification (blinking 0xFFFFFFFF 500 300))
    = [to_string stepDuration]
    /\ written (WHITE_LED ++ PAUSE_HI)
         (handleNotification (blinking 0xFFFFFFFF 500 300))
       = [to_string pauseHi]
    /\ 16 * stepDuration + pauseHi <= 500 < 16 * stepDuration + pauseHi + 16.
Proof.
  destruct (blink_program_fits_on_time (blinking 0xFFFFFFFF 500 300)
              ltac:(reflexivity) ltac:(cbn; lia))
    as (stepDuration & pauseHi & Hstep & Hhi & _ & _ & Hfit & _).
  exists stepDuration, pauseHi. cbn in Hfit.
  split; [exact Hstep |]. split; [exact Hhi | exact Hfit].
Defined.

(** X8. A negative on-time is not rejected. For a TIMED state whose
    flashOnMs is negative (and from which 800 can be subtracted in 32
    bits) the handler still writes the whole program, with pause_hi 0 and
    the ramp step flashOnMs / 16 truncated toward zero, which is never
    positive and is negative from -16 down. *)
Theorem negative_on_time_program :
  forall state : HwLightState,
    flashMode state = TIMED ->
    - 2 ^ 31 + 800 <= flashOnMs state < 0 ->
    let stepDuration := Z.quot (flashOnMs state) 16 in
    written (WHITE_LED ++ PAUSE_HI) (handleNotification state) = ["0"]
    /\ written (WHITE_LED ++ RAMP_STEP_MS) (handleNotification state)
       = [to_string stepDuration]
    /\ stepDuration <= 0
    /\ (flashOnMs state <= -16 -> stepDuration < 0)
    /\ last (handleNotification state) (Write "" "")
       = Write (WHITE_LED ++ BLINK) "1".
Proof.
  intros state Hmode Hon stepDuration. unfold stepDuration.
  rewrite (handleNotification_timed state Hmode). cbv zeta.
  unfold sub_i32, div_i32.
  rewrite (wrap_i32_small (flashOnMs state - 800)) by (unfold int32; lia).
  replace (flashOnMs state - 800 <? 0) with true
    by (symmetry; apply Z.ltb_lt; lia).
  pose proof (Z.quot_rem' (flashOnMs state) 16) as Hqr.
  pose proof (Z.rem_bound_pos_neg (flashOnMs state) 16 ltac:(lia)
                ltac:(lia)) as Hrem.
  rewrite !(wrap_i32_small (Z.quot (flashOnMs state) 16))
    by (unfold int32; lia).
  repeat split; try reflexivity; lia.
Qed.

Lemma negative_on_time_program_witness :
  written (WHITE_LED ++ PAUSE_HI)
    (handleNotification (blinking 0xFFFFFFFF (-100) 300)) = ["0"]
  /\ written (WHITE_LED ++ RAMP_STEP_MS)
       (handleNotification (blinking 0xFFFFFFFF (-100) 300)) = ["-6"].
Proof.
  destruct (negative_on_time_program (blinking 0xFFFFFFFF (-100) 300)
              ltac:(reflexivity) ltac:(cbn; lia))
    as (Hhi & Hstep & _).
  split; [exact Hhi | exact Hstep].
Defined.

Lemma fields_of_ramp (b : Z) :
  0 <= b ->
  fields (String.concat "," (map to_string (spec_ramp b)))
  = map to_string (spec_ramp b).
Proof.
  intros Hb. unfold fields.
  pose proof (spec_ramp_nonneg b Hb) as Hnonneg.
  unfold spec_ramp in *. cbn [map] in *.
  rewrite fields_from_concat; [reflexivity |].
  repeat match goal with
         | H : Forall _ (_ :: _) |- _ =>
             let Hhead := fresh in let Htail := fresh in
             inversion H as [| ? ? Hhead Htail]; subst; clear H
         end.
  repeat constructor; now apply comma_free_to_string.
Qed.

Lemma parse_to_string_all (values : list Z) :
  map parse_int (map to_string values) = map Some values.
Proof.
  rewrite map_map. apply map_ext. intros z. apply parse_to_string.
Qed.

(** X9. The duty cycles written by a TIMED render are valid and ramp up:
    the attribute holds eight comma-separated integers that read back as
    a non-decreasing sequence starting at 0, each between 0 and 100 and
    the last being 100 * luma / 255. *)
Theorem duty_pcts_ramp_up :
  forall state : HwLightState,
    flashMode state = TIMED ->
    exists (text : string) (duty : list Z),
      written (WHITE_LED ++ DUTY_PCTS) (handleNotification state) = [text]
      /\ map parse_int (fields text) = map Some duty
      /\ List.length duty = 8%nat
      /\ hd_error duty = Some 0
      /\ last duty 0 = 100 * getBrightness state / 255
      /\ Forall (fun d => 0 <= d <= 100) duty
      /\ Sorted Z.le duty.
Proof.
  intros state Hmode.
  pose proof (getBrightness_bound state) as Hluma.
  exists (String.concat "," (map to_string (spec_ramp (getBrightness state)))),
    (spec_ramp (getBrightness state)).
  split; [now apply duty_pcts_of_render |].
  split; [rewrite fields_of_ramp by lia; apply parse_to_string_all |].
  unfold spec_ramp. cbn [map List.length hd_error last].
  split; [reflexivity |]. split; [reflexivity |]. split; [reflexivity |].
  split.
  - repeat constructor;
      try (apply Z.div_pos; lia);
      apply Z.div_le_upper_bound; lia.
  - repeat constructor; apply div_255_mono; lia.
Qed.

Lemma duty_pcts_ramp_up_witness :
  exists (text : string) (duty : list Z),
    written (WHITE_LED ++ DUTY_PCTS)
      (handleNotification (blinking 0xFF808080 1000 300)) = [text]
    /\ map parse_int (fields text) = map Some duty
    /\ Sorted Z.le duty.
Proof.
  destruct (duty_pcts_ramp_up (blinking 0xFF808080 1000 300)
              ltac:(reflexivity))
    as (text & duty & Htext & Hparse & _ & _ & _ & _ & Hsorted).
  exists text, duty.
  split; [exact Htext |]. split; [exact Hparse | exact Hsorted].
Defined.

(** X10. A TIMED state whose colour is unlit is not rendered as a plain
    "off": the handler writes the whole blink program with an all-zero
    duty ramp and ends by enabling blinking. *)
Theorem unlit_timed_arms_blink :
  forall state : HwLightState,
    flashMode state = TIMED ->
    isLit state = false ->
    written (WHITE_LED ++ DUTY_PCTS) (handleNotification state)
    = ["0,0,0,0,0,0,0,0"]
    /\ written (WHITE_LED ++ BLINK) (handleNotification state) = ["0"; "1"]
    /\ written (WHITE_LED ++ BRIGHTNESS) (handleNotification state) = []
    /\ last (handleNotification state) (Write "" "")
       = Write (WHITE_LED ++ BLINK) "1".
Proof.
  intros state Hmode Hunlit.
  rewrite (handleNotification_timed state Hmode). cbv zeta.
  rewrite (unlit_scaled_brightness state MAX_LED_BRIGHTNESS Hunlit).
  repeat split.
Qed.

Lemma unlit_timed_arms_blink_witness :
  written (WHITE_LED ++ DUTY_PCTS)
    (handleNotification (blinking 0xFF000000 1000 300))
  = ["0,0,0,0,0,0,0,0"]
  /\ last (handleNotification (blinking 0xFF000000 1000 300)) (Write "" "")
     = Write (WHITE_LED ++ BLINK) "1".
Proof.
  destruct (unlit_timed_arms_blink (blinking 0xFF000000 1000 300)
              ltac:(reflexivity) ltac:(reflexivity))
    as (Hduty & _ & _ & Hlast).
  split; [exact Hduty | exact Hlast].
Defined.

(** * Further properties of the service *)

Lemma table_of_setLightState (cast : Z -> LightType) (id : Z)
  (state : HwLightState) (bs : list LightBackend) :
  table_of (setLightState cast id state bs) = map (store (cast id) state) bs.
Proof.
  unfold setLightState. rewrite update_backends_spec.
  destruct (fold_left _ bs None) as [handler |]; [| reflexivity].
  destruct (light_up handler (map (store (cast id) state) bs)); reflexivity.
Qed.

Lemma paths_run (handler : LightStateHandler) (state : HwLightState)
  (path : string) :
  In path (paths (run handler state)) -> In path (handler_attributes handler).
Proof.
  destruct handler; cbn [run].
  - cbn. tauto.
  - cbn. tauto.
  - destruct (flashMode state) eqn:Hmode.
    + rewrite handleNotification_static by congruence. cbn. tauto.
    + rewrite (handleNotification_timed state Hmode). cbn. tauto.
    + rewrite handleNotification_static by congruence. cbn. tauto.
Qed.

Lemma handler_attributes_disjoint (h h' : LightStateHandler) (path : string) :
  In path (handler_attributes h) -> In path (handler_attributes h') ->
  h = h'.
Proof.
  destruct h, h'; cbn; intros Hin Hin'; try reflexivity; exfalso;
    repeat (destruct Hin as [<- | Hin];
            [repeat (destruct Hin' as [Hin' | Hin'];
                     [discriminate Hin' |]); exact Hin' |]);
    exact Hin.
Qed.

(** X11. A call only touches the LED of the requested class: every
    attribute written by a successful [setLightState] belongs to the
    handler of that class and to no other handler, whatever states the
    table holds. A backlight or buttons request never writes to the white
    LED, and a notification, attention or battery request never writes to
    the backlight or the buttons. *)
Theorem setLightState_writes_own_attributes :
  forall (cast : Z -> LightType) (id : Z) (state : HwLightState)
         (bs : list LightBackend) (handler : LightStateHandler)
         (path : string),
    well_formed bs ->
    class_handler (cast id) = Some handler ->
    In path (paths (trace_of (setLightState cast id state bs))) ->
    In path (handler_attributes handler)
    /\ forall other, other <> handler ->
                     ~ In path (handler_attributes other).
Proof.
  intros cast id state bs handler path Hwf Hclass Hin.
  rewrite (setLightState_supported cast id state bs handler Hwf Hclass)
    in Hin.
  cbn [trace_of snd] in Hin.
  assert (Hown : In path (handler_attributes handler)).
  { destruct (first_lit handler (map (store (cast id) state) bs));
      unfold call in Hin; now apply paths_run in Hin. }
  split; [exact Hown |].
  intros other Hother Hin'. apply Hother.
  now apply (handler_attributes_disjoint other handler path).
Qed.

Lemma setLightState_writes_own_attributes_witness :
  ~ In (WHITE_LED ++ BLINK)%string
      (paths (trace_of (setLightState hal_LightType_of_int 0
                          (solid 0xFFFFFFFF) (backends dark)))).
Proof.
  intros Hin.
  destruct (setLightState_writes_own_attributes hal_LightType_of_int 0
              (solid 0xFFFFFFFF) (backends dark) fn_handleBacklight
              (WHITE_LED ++ BLINK)%string ltac:(reflexivity)
              ltac:(reflexivity) Hin) as [_ Hother].
  apply (Hother fn_handleNotification); [discriminate |].
  cbn. tauto.
Defined.

(** X12. A successful call renders exactly once, through the handler of
    the requested class, and what it renders is always a state stored in
    the updated table under that handler; an unlit state is rendered only
    when it is the state just requested. *)
Theorem setLightState_renders_stored_state :
  forall (cast : Z -> LightType) (id : Z) (state : HwLightState)
         (bs : list LightBackend) (handler : LightStateHandler),
    well_formed bs ->
    class_handler (cast id) = Some handler ->
    let result := setLightState cast id state bs in
    exists rendered : HwLightState,
      trace_of result = call handler rendered
      /\ handler_calls (trace_of result) = [(handler, rendered)]
      /\ (exists b, In b (table_of result)
                    /\ LightBackend.handler b = handler
                    /\ LightBackend.state b = rendered)
      /\ (isLit rendered = false -> rendered = state).
Proof.
  intros cast id state bs handler Hwf Hclass result. unfold result.
  rewrite (setLightState_supported cast id state bs handler Hwf Hclass).
  cbn [trace_of table_of fst snd].
  destruct (first_lit handler (map (store (cast id) state) bs))
    as [winner |] eqn:Hfirst.
  - exists (LightBackend.state winner).
    apply find_some in Hfirst as [Hin Hcompetes].
    unfold competes in Hcompetes.
    apply andb_true_iff in Hcompetes as [Hhandler Hlit].
    apply LightStateHandler_eqb_eq in Hhandler.
    split; [reflexivity |]. split; [apply handler_calls_call |].
    split; [now exists winner |].
    intros Hunlit. congruence.
  - exists state.
    split; [reflexivity |]. split; [apply handler_calls_call |].
    split; [| reflexivity].
    pose proof (class_handler_supported _ _ Hclass) as Hin.
    rewrite <- (well_formed_types bs Hwf) in Hin.
    apply in_map_iff in Hin as (entry & Htype & Hentry).
    pose proof (well_formed_class_handler bs entry Hwf Hentry) as Hh.
    exists (store (cast id) state entry).
    split; [now apply in_map |].
    rewrite store_same by assumption. cbn. split; congruence.
Qed.

Lemma setLightState_renders_stored_state_witness :
  exists rendered : HwLightState,
    handler_calls
      (trace_of (setLightState hal_LightType_of_int 3 (solid 0xFF00FF00)
                   (backends dark)))
    = [(fn_handleNotification, rendered)].
Proof.
  destruct (setLightState_renders_stored_state hal_LightType_of_int 3
              (solid 0xFF00FF00) (backends dark) fn_handleNotification
              ltac:(reflexivity) ltac:(reflexivity))
    as (rendered & _ & Hcalls & _).
  now exists rendered.
Defined.

(** X13. BACKLIGHT and BUTTONS have a handler of their own, so they are
    never arbitrated: a request for either is rendered with exactly the
    requested state, lit or not, whatever the other classes store. *)
Theorem backlight_and_buttons_render_request :
  forall (cast : Z -> LightType) (id : Z) (state : HwLightState)
         (bs : list LightBackend),
    well_formed bs ->
    cast id = BACKLIGHT \/ cast id = BUTTONS ->
    let result := setLightState cast id state bs in
    status_of result = ok
    /\ trace_of result
       = Call (if LightType_eqb (cast id) BACKLIGHT
               then fn_handleBacklight else fn_handleButtons) state
         :: (if LightType_eqb (cast id) BACKLIGHT
             then handleBacklight state else handleButtons state).
Proof.
  intros cast id state bs Hwf Hclass result. unfold result.
  pose proof (well_formed_inv bs Hwf) as (s0 & s1 & s2 & s3 & s4 & ->).
  destruct Hclass as [Hclass | Hclass].
  - rewrite (setLightState_supported cast id state _ fn_handleBacklight Hwf)
      by now rewrite Hclass.
    rewrite Hclass. unfold first_lit, competes. cbn.
    destruct (isLit state); split; reflexivity.
  - rewrite (setLightState_supported cast id state _ fn_handleButtons Hwf)
      by now rewrite Hclass.
    rewrite Hclass. unfold first_lit, competes. cbn.
    destruct (isLit state); split; reflexivity.
Qed.

Lemma backlight_and_buttons_render_request_witness :
  let bs :=
    fst (replay hal_LightType_of_int [(5, solid 0xFFFF0000)]
           (backends dark)) in
  trace_of (setLightState hal_LightType_of_int 2 (solid 0xFF404040) bs)
  = Call fn_handleButtons (solid 0xFF404040)
    :: handleButtons (solid 0xFF404040).
Proof.
  apply (backlight_and_buttons_render_request hal_LightType_of_int 2
           (solid 0xFF404040)
           (fst (replay hal_LightType_of_int [(5, solid 0xFFFF0000)]
                   (backends dark)))).
  - reflexivity.
  - right. reflexivity.
Defined.

Lemma store_overwrite (type : LightType) (first second : HwLightState)
  (b : LightBackend) :
  store type second (store type first b) = store type second b.
Proof.
  unfold store at 2.
  destruct (LightType_eqb (LightBackend.type b) type) eqn:E.
  - unfold store. cbn. now rewrite E.
  - reflexivity.
Qed.

Lemma store_commute (type type' : LightType) (state state' : HwLightState)
  (b : LightBackend) :
  type <> type' ->
  store type state (store type' state' b)
  = store type' state' (store type state b).
Proof.
  intros Hneq. unfold store.
  destruct (LightType_eqb (LightBackend.type b) type) eqn:E;
    destruct (LightType_eqb (LightBackend.type b) type') eqn:E';
    cbn; rewrite ?E, ?E'; try reflexivity.
  apply LightType_eqb_eq in E, E'. congruence.
Qed.

(** X14. The latest request for a class replaces the previous one
    entirely: two calls in a row for the same identifier give the same
    status, table and render as the second call alone. *)
Theorem second_request_supersedes_first :
  forall (cast : Z -> LightType) (id : Z) (first second : HwLightState)
         (bs : list LightBackend),
    well_formed bs ->
    setLightState cast id second
      (table_of (setLightState cast id first bs))
    = setLightState cast id second bs.
Proof.
  intros cast id first second bs Hwf.
  rewrite table_of_setLightState.
  destruct (class_handler (cast id)) as [handler |] eqn:Hclass.
  - rewrite (setLightState_supported cast id second _ handler
               (well_formed_store _ _ _ Hwf) Hclass).
    rewrite (setLightState_supported cast id second bs handler Hwf Hclass).
    rewrite map_map.
    now rewrite (map_ext _ _ (store_overwrite (cast id) first second)).
  - assert (Hnot : ~ In (cast id) supported).
    { intros Hin. apply supported_class_handler in Hin as [h Hh].
      congruence. }
    assert (Hsame : map (store (cast id) first) bs = bs).
    { pose proof (setLightState_unsupported cast id first bs Hwf Hnot) as H.
      apply (f_equal table_of) in H.
      now rewrite table_of_setLightState in H. }
    now rewrite Hsame.
Qed.

Lemma second_request_supersedes_first_witness :
  setLightState hal_LightType_of_int 4 dark
    (table_of (setLightState hal_LightType_of_int 4 (solid 0xFFFFFFFF)
                 (backends dark)))
  = setLightState hal_LightType_of_int 4 dark (backends dark).
Proof.
  apply (second_request_supersedes_first hal_LightType_of_int 4
           (solid 0xFFFFFFFF) dark (backends dark)).
  reflexivity.
Defined.

(** X15. Requests for different classes do not disturb each other's
    stored state: two calls for different classes leave the same table in
    either order, on any table. *)
Theorem requests_commute_on_table :
  forall (cast : Z -> LightType) (id id' : Z) (state state' : HwLightState)
         (bs : list LightBackend),
    cast id <> cast id' ->
    table_of (setLightState cast id' state'
                (table_of (setLightState cast id state bs)))
    = table_of (setLightState cast id state
                  (table_of (setLightState cast id' state' bs))).
Proof.
  intros cast id id' state state' bs Hneq.
  rewrite !table_of_setLightState, !map_map.
  apply map_ext. intros b. apply store_commute. congruence.
Qed.

Lemma requests_commute_on_table_witness :
  table_of (setLightState hal_LightType_of_int 3 (solid 0xFF00FF00)
              (table_of (setLightState hal_LightType_of_int 5
                           (solid 0xFFFF0000) (backends dark))))
  = table_of (setLightState hal_LightType_of_int 5 (solid 0xFFFF0000)
                (table_of (setLightState hal_LightType_of_int 3
                             (solid 0xFF00FF00) (backends dark)))).
Proof.
  apply (requests_commute_on_table hal_LightType_of_int 5 3
           (solid 0xFFFF0000) (solid 0xFF00FF00) (backends dark)).
  discriminate.
Defined.

Lemma replay_cons (cast : Z -> LightType) (id : Z) (state : HwLightState)
  (calls : list (Z * HwLightState)) (bs : list LightBackend) :
  replay cast ((id, state) :: calls) bs
  = (fst (replay cast calls (table_of (setLightState cast id state bs))),
     trace_of (setLightState cast id state bs)
     ++ snd (replay cast calls (table_of (setLightState cast id state bs)))).
Proof.
  cbn [replay].
  destruct (setLightState cast id state bs) as [[status bs'] trace].
  cbn [table_of trace_of fst snd].
  destruct (replay cast calls bs') as [bs'' trace']. reflexivity.
Qed.

Lemma stored_after_replay (cast : Z -> LightType) (type : LightType)
  (calls : list (Z * HwLightState)) (bs : list LightBackend) :
  In type (map LightBackend.type bs) ->
  stored type (fst (replay cast calls bs))
  = match last_request cast type calls with
    | Some state => Some state
    | None => stored type bs
    end.
Proof.
  revert bs. induction calls as [| [id state] calls IH]; intros bs Hin.
  - reflexivity.
  - rewrite replay_cons. cbn [fst last_request].
    rewrite table_of_setLightState.
    assert (Hin' : In type (map LightBackend.type
                              (map (store (cast id) state) bs))).
    { rewrite map_map.
      rewrite (map_ext _ LightBackend.type); [exact Hin |].
      intros b. now destruct (store_signature (cast id) state b). }
    rewrite (IH _ Hin').
    destruct (last_request cast type calls) as [later |]; [reflexivity |].
    destruct (LightType_eqb (cast id) type) eqn:E.
    + apply LightType_eqb_eq in E. rewrite E.
      now apply stored_store_same.
    + apply LightType_eqb_neq in E. apply stored_store_other. congruence.
Qed.

(** X16. After any history of calls the table stores, for each of the
    five classes, the state of the most recent call for that class, or
    the initial state if the class was never requested; earlier requests
    and requests for other classes leave no mark on it. *)
Theorem stored_state_is_last_request :
  forall (cast : Z -> LightType) (init : HwLightState)
         (calls : list (Z * HwLightState)) (type : LightType),
    In type supported ->
    stored type (fst (replay cast calls (backends init)))
    = Some (match last_request cast type calls with
            | Some state => state
            | None => init
            end).
Proof.
  intros cast init calls type Hin.
  rewrite stored_after_replay
    by (now rewrite (well_formed_types _ (well_formed_backends init))).
  destruct (last_request cast type calls); [reflexivity |].
  unfold supported in Hin.
  repeat (destruct Hin as [<- | Hin]; [reflexivity |]). destruct Hin.
Qed.

Lemma stored_state_is_last_request_witness :
  stored NOTIFICATIONS
    (fst (replay hal_LightType_of_int
            [(4, solid 0xFFFF0000); (3, solid 0xFF00FF00);
             (4, solid 0xFF0000FF); (7, solid 0xFFFFFFFF)]
            (backends dark)))
  = Some (solid 0xFF0000FF).
Proof.
  apply (stored_state_is_last_request hal_LightType_of_int dark
           [(4, solid 0xFFFF0000); (3, solid 0xFF00FF00);
            (4, solid 0xFF0000FF); (7, solid 0xFFFFFFFF)] NOTIFICATIONS).
  cbn. tauto.
Defined.

(** X17. While a class is lit, requests for classes of the same handler
    that come after it in the table are stored but not shown: such a call
    renders the lit class's state, whatever state is requested, provided
    no class of the handler before the lit one is lit. *)
Theorem lower_priority_request_is_masked :
  forall (cast : Z -> LightType) (id : Z) (state : HwLightState)
         (pre post : list LightBackend) (top : LightBackend)
         (handler : LightStateHandler),
    well_formed (pre ++ top :: post) ->
    class_handler (cast id) = Some handler ->
    In (cast id) (map LightBackend.type post) ->
    LightBackend.handler top = handler ->
    isLit (LightBackend.state top) = true ->
    (forall b, In b pre -> LightBackend.handler b = handler ->
               isLit (LightBackend.state b) = false) ->
    let result := setLightState cast id state (pre ++ top :: post) in
    trace_of result = call handler (LightBackend.state top)
    /\ stored (cast id) (table_of result) = Some state.
Proof.
  intros cast id state pre post top handler Hwf Hclass Hpost Hhandler Hlit
    Hpre result. unfold result.
  assert (Hnodup : NoDup (map LightBackend.type (pre ++ top :: post))).
  { rewrite (well_formed_types _ Hwf). unfold supported.
    repeat constructor; cbn; intuition discriminate. }
  rewrite map_app in Hnodup. cbn [map] in Hnodup.
  assert (Hlater : forall b, In b (pre ++ [top]) ->
            LightBackend.type b <> cast id).
  { intros b Hb Heq.
    replace (map LightBackend.type pre
             ++ LightBackend.type top :: map LightBackend.type post)
      with (map LightBackend.type (pre ++ [top])
            ++ map LightBackend.type post) in Hnodup
      by (rewrite map_app, <- app_assoc; reflexivity).
    apply in_split in Hpost as (l1 & l2 & Hsplit).
    rewrite Hsplit, app_assoc in Hnodup.
    apply NoDup_remove_2 in Hnodup. apply Hnodup.
    apply in_or_app. left. apply in_or_app. left.
    rewrite <- Heq. now apply in_map. }
  split.
  - rewrite (setLightState_supported cast id state _ handler Hwf Hclass).
    cbn [trace_of snd]. unfold first_lit. rewrite map_app. cbn [map].
    rewrite (find_first _ _ _ (store (cast id) state top)).
    + rewrite store_other
        by (apply Hlater, in_or_app; right; now left).
      reflexivity.
    + intros b Hb. apply in_map_iff in Hb as (b0 & <- & Hb0).
      rewrite store_other by (apply Hlater, in_or_app; now left).
      apply competes_false. now apply Hpre.
    + rewrite store_other
        by (apply Hlater, in_or_app; right; now left).
      now apply competes_true.
  - rewrite table_of_setLightState. apply stored_store_same.
    rewrite map_app. cbn [map]. apply in_or_app. right. now right.
Qed.

Lemma lower_priority_request_is_masked_witness :
  let top := LightBackend.mk ATTENTION (solid 0xFFFF0000)
               fn_handleNotification in
  let post := [ LightBackend.mk NOTIFICATIONS dark fn_handleNotification;
                LightBackend.mk BATTERY dark fn_handleNotification;
                LightBackend.mk BACKLIGHT dark fn_handleBacklight;
                LightBackend.mk BUTTONS dark fn_handleButtons ] in
  trace_of (setLightState hal_LightType_of_int 3 (solid 0xFF00FF00)
              ([] ++ top :: post))
  = call fn_handleNotification (solid 0xFFFF0000).
Proof.
  apply (lower_priority_request_is_masked hal_LightType_of_int 3
           (solid 0xFF00FF00) []
           [ LightBackend.mk NOTIFICATIONS dark fn_handleNotification;
             LightBackend.mk BATTERY dark fn_handleNotification;
             LightBackend.mk BACKLIGHT dark fn_handleBacklight;
             LightBackend.mk BUTTONS dark fn_handleButtons ]
           (LightBackend.mk ATTENTION (solid 0xFFFF0000)
              fn_handleNotification)
           fn_handleNotification).
  - reflexivity.
  - reflexivity.
  - cbn. tauto.
  - reflexivity.
  - reflexivity.
  - intros b [].
Defined.

Lemma supportedb_spec (type : LightType) :
  supportedb type = true <-> In type supported.
Proof.
  unfold supportedb. rewrite existsb_exists. split.
  - intros (t & Hin & Heq). apply LightType_eqb_eq in Heq. now subst.
  - intros Hin. exists type. split; [exact Hin |].
    now apply LightType_eqb_eq.
Qed.

(** X18. Rejected calls leave no mark on a history: dropping every call
    whose identifier denotes none of the five classes changes neither the
    final table nor the sequence of handler calls and attribute writes. *)
Theorem unsupported_calls_can_be_dropped :
  forall (cast : Z -> LightType) (calls : list (Z * HwLightState))
         (bs : list LightBackend),
    well_formed bs ->
    replay cast calls bs
    = replay cast
        (filter (fun request => supportedb (cast (fst request))) calls) bs.
Proof.
  intros cast calls. induction calls as [| [id state] calls IH];
    intros bs Hwf; [reflexivity |].
  cbn [filter fst].
  destruct (supportedb (cast id)) eqn:Hsupported.
  - rewrite !replay_cons.
    now rewrite (IH _ (setLightState_well_formed cast id state bs Hwf)).
  - rewrite replay_cons.
    assert (Hnot : ~ In (cast id) supported).
    { rewrite <- supportedb_spec. congruence. }
    rewrite (setLightState_unsupported cast id state bs Hwf Hnot).
    cbn [table_of trace_of fst snd app]. rewrite <- (IH bs Hwf).
    now destruct (replay cast calls bs).
Qed.

Lemma unsupported_calls_can_be_dropped_witness :
  replay hal_LightType_of_int
    [(7, solid 0xFFFFFFFF); (4, solid 0xFF0000FF); (1, dark)]
    (backends dark)
  = replay hal_LightType_of_int [(4, solid 0xFF0000FF)] (backends dark).
Proof.
  apply (unsupported_calls_can_be_dropped hal_LightType_of_int
           [(7, solid 0xFFFFFFFF); (4, solid 0xFF0000FF); (1, dark)]
           (backends dark)).
  reflexivity.
Defined.

(** X19. What a render draws from the table is the states stored under
    its own handler and nothing else: on two tables that agree on those
    states, the same call performs the same handler call and the same
    attribute writes. *)
Theorem render_depends_on_handler_group_only :
  forall (cast : Z -> LightType) (id : Z) (state : HwLightState)
         (bs bs' : list LightBackend) (handler : LightStateHandler),
    well_formed bs -> well_formed bs' ->
    class_handler (cast id) = Some handler ->
    (forall type, class_handler type = Some handler ->
                  stored type bs = stored type bs') ->
    trace_of (setLightState cast id state bs)
    = trace_of (setLightState cast id state bs').
Proof.
  intros cast id state bs bs' handler Hwf Hwf' Hclass Hgroup.
  rewrite (setLightState_supported cast id state bs handler Hwf Hclass).
  rewrite (setLightState_supported cast id state bs' handler Hwf' Hclass).
  cbn [trace_of snd].
  pose proof (well_formed_inv bs Hwf) as (s0 & s1 & s2 & s3 & s4 & ->).
  pose proof (well_formed_inv bs' Hwf') as (t0 & t1 & t2 & t3 & t4 & ->).
  remember (cast id) as type eqn:Htype. clear Htype Hwf Hwf'.
  unfold first_lit, competes.
  destruct handler.
  - pose proof (Hgroup BACKLIGHT eq_refl) as H3. cbn in H3.
    inversion H3; subst.
    destruct type; try discriminate Hclass; cbn;
      destruct (isLit state); reflexivity.
  - pose proof (Hgroup BUTTONS eq_refl) as H4. cbn in H4.
    inversion H4; subst.
    destruct type; try discriminate Hclass; cbn;
      destruct (isLit state); reflexivity.
  - pose proof (Hgroup ATTENTION eq_refl) as H0.
    pose proof (Hgroup NOTIFICATIONS eq_refl) as H1.
    pose proof (Hgroup BATTERY eq_refl) as H2.
    cbn in H0, H1, H2. inversion H0; inversion H1; inversion H2; subst.
    destruct type; try discriminate Hclass; cbn; reflexivity.
Qed.

Lemma render_depends_on_handler_group_only_witness :
  trace_of (setLightState hal_LightType_of_int 4 (solid 0xFF0000FF)
              (backends dark))
  = trace_of (setLightState hal_LightType_of_int 4 (solid 0xFF0000FF)
                (fst (replay hal_LightType_of_int
                        [(0, solid 0xFFFFFFFF); (2, solid 0xFF808080)]
                        (backends dark)))).
Proof.
  apply (render_depends_on_handler_group_only hal_LightType_of_int 4
           (solid 0xFF0000FF) (backends dark)
           (fst (replay hal_LightType_of_int
                   [(0, solid 0xFFFFFFFF); (2, solid 0xFF808080)]
                   (backends dark)))
           fn_handleNotification).
  - reflexivity.
  - reflexivity.
  - reflexivity.
  - intros type Htype.
    destruct type; cbn in Htype; try discriminate Htype; reflexivity.
Defined.

(** * The files behind the attributes *)

Lemma last_cons {A : Type} (x d : A) (l : list A) :
  last (x :: l) d = last l x.
Proof.
  revert x d. induction l as [| y l IH]; intros x d; [reflexivity |].
  change (last (x :: y :: l) d) with (last (y :: l) d).
  now rewrite (IH y d), (IH y x).
Qed.

Lemma written_cons_write (path p value : string) (trace : io) :
  written path (Write p value :: trace)
  = if String.eqb p path then value :: written path trace
    else written path trace.
Proof.
  unfold written, writes. cbn [flat_map app filter fst].
  destruct (String.eqb p path); reflexivity.
Qed.

Lemma perform_content (openable : string -> bool) (trace : io) (fs : files)
  (path : string) :
  content (perform openable trace fs) path
  = if openable path
    then last (written path trace) (content fs path)
    else content fs path.
Proof.
  revert fs. induction trace as [| e trace IH]; intros fs.
  - cbn. now destruct (openable path).
  - unfold perform in *. cbn [fold_left]. rewrite IH. clear IH.
    destruct e as [handler state | p value]; [reflexivity |].
    rewrite written_cons_write. unfold set_file.
    destruct (String.eqb_spec p path) as [-> | Hneq].
    + destruct (openable path) eqn:Hopen; cbn [content].
      * rewrite String.eqb_refl. now rewrite last_cons.
      * reflexivity.
    + destruct (openable p); cbn [content];
        [| reflexivity].
      replace (String.eqb path p) with false
        by (symmetry; apply String.eqb_neq; congruence).
      reflexivity.
Qed.

Lemma perform_warnings (openable : string -> bool) (trace : io) (fs : files) :
  warnings (perform openable trace fs)
  = warnings fs
    ++ map (fun pv => ("failed to write " ++ snd pv ++ " to " ++ fst pv)%string)
         (filter (fun pv => negb (openable (fst pv))) (writes trace)).
Proof.
  revert fs. induction trace as [| e trace IH]; intros fs.
  - cbn. now rewrite app_nil_r.
  - unfold perform in *. cbn [fold_left]. rewrite IH. clear IH.
    destruct e as [handler state | p value]; [reflexivity |].
    unfold writes. cbn [flat_map app filter fst]. unfold set_file.
    destruct (openable p); cbn [warnings negb map snd fst].
    + reflexivity.
    + now rewrite <- app_assoc.
Qed.

(** X20. A write that cannot open its file costs one warning and nothing
    else; it does not stop the render. After any handler has run, every
    attribute that could be opened and was written holds the last value
    written to it, every other file is as before, and the log has grown by
    one warning per write that could not open its file. *)
Theorem failed_writes_do_not_abort_render :
  forall (openable : string -> bool) (handler : LightStateHandler)
         (state : HwLightState) (fs : files),
    let trace := run handler state in
    let fs' := perform openable trace fs in
    (forall path,
        openable path = true -> In path (paths trace) ->
        content fs' path = last (written path trace) ""%string)
    /\ (forall path,
           openable path = false \/ ~ In path (paths trace) ->
           content fs' path = content fs path)
    /\ warnings fs'
       = warnings fs
         ++ map (fun pv =>
                   ("failed to write " ++ snd pv ++ " to " ++ fst pv)%string)
              (filter (fun pv => negb (openable (fst pv))) (writes trace)).
Proof.
  intros openable handler state fs trace fs'.
  assert (Hnone : forall path, ~ In path (paths trace) ->
            written path trace = []).
  { intros path Hnot. unfold written, paths in *.
    induction (writes trace) as [| [p v] ws IH]; [reflexivity |].
    cbn [filter fst map]. cbn [map fst In] in Hnot.
    destruct (String.eqb_spec p path) as [-> | Hneq]; [tauto |].
    apply IH. tauto. }
  assert (Hsome : forall path d d', In path (paths trace) ->
            last (written path trace) d = last (written path trace) d').
  { intros path d d' Hin. unfold written, paths in *.
    assert (Hne : map snd (filter (fun pv => String.eqb (fst pv) path)
                             (writes trace)) <> []).
    { apply in_map_iff in Hin as ([p v] & Hp & Hin). cbn in Hp. subst p.
      intros Hnil. apply map_eq_nil in Hnil.
      assert (Hmem : In (path, v)
                (filter (fun pv => String.eqb (fst pv) path)
                   (writes trace))).
      { apply filter_In. split; [exact Hin |]. apply String.eqb_refl. }
      rewrite Hnil in Hmem. destruct Hmem. }
    destruct (map snd _) as [| x l]; [congruence |].
    now rewrite !last_cons. }
  split; [| split].
  - intros path Hopen Hin. unfold fs'.
    rewrite perform_content, Hopen. now apply Hsome.
  - intros path [Hclosed | Hnot]; unfold fs'; rewrite perform_content.
    + now rewrite Hclosed.
    + rewrite (Hnone path Hnot). now destruct (openable path).
  - apply perform_warnings.
Qed.

Lemma failed_writes_do_not_abort_render_witness :
  let openable path :=
    negb (String.eqb path "/sys/class/leds/button-backlight/brightness") in
  let fs := mkFiles (fun _ => "7"%string) [] in
  let fs' := perform openable (run fn_handleButtons (solid 0xFF404040)) fs in
  content fs' "/sys/class/leds/button-backlight1/brightness" = "64"%string
  /\ content fs' "/sys/class/leds/button-backlight/brightness" = "7"%string
  /\ warnings fs'
     = ["failed to write 64 to /sys/class/leds/button-backlight/brightness"
       ]%string.
Proof.
  cbv zeta.
  destruct (failed_writes_do_not_abort_render
              (fun path =>
                 negb (String.eqb path
                         "/sys/class/leds/button-backlight/brightness"))
              fn_handleButtons (solid 0xFF404040)
              (mkFiles (fun _ => "7"%string) []))
    as (Hwritten & Hkept & Hlog).
  split; [| split].
  - rewrite Hwritten; [reflexivity | reflexivity | cbn; tauto].
  - rewrite Hkept; [reflexivity | left; reflexivity].
  - rewrite Hlog. reflexivity.
Defined.

(** * The notification LED after a history of calls *)

Lemma last_request_app (cast : Z -> LightType) (type : LightType)
  (calls : list (Z * HwLightState)) (id : Z) (state : HwLightState) :
  last_request cast type (calls ++ [(id, state)])
  = if LightType_eqb (cast id) type then Some state
    else last_request cast type calls.
Proof.
  induction calls as [| [id' state'] calls IH].
  - cbn. reflexivity.
  - cbn [app last_request]. rewrite IH.
    destruct (LightType_eqb (cast id) type); [reflexivity |].
    reflexivity.
Qed.

Lemma table_after_history (cast : Z -> LightType) (init : HwLightState)
  (calls : list (Z * HwLightState)) :
  fst (replay cast calls (backends init))
  = [ LightBackend.mk ATTENTION
        (current_request cast init calls ATTENTION) fn_handleNotification;
      LightBackend.mk NOTIFICATIONS
        (current_request cast init calls NOTIFICATIONS) fn_handleNotification;
      LightBackend.mk BATTERY
        (current_request cast init calls BATTERY) fn_handleNotification;
      LightBackend.mk BACKLIGHT
        (current_request cast init calls BACKLIGHT) fn_handleBacklight;
      LightBackend.mk BUTTONS
        (current_request cast init calls BUTTONS) fn_handleButtons ].
Proof.
  pose proof (replay_well_formed cast calls (backends init)
                (well_formed_backends init)) as Hwf.
  assert (Hstored : forall type, In type supported ->
            stored type (fst (replay cast calls (backends init)))
            = Some (current_request cast init calls type)).
  { intros type Hin. unfold current_request.
    rewrite stored_after_replay
      by (now rewrite (well_formed_types _ (well_formed_backends init))).
    destruct (last_request cast type calls); [reflexivity |].
    unfold supported in Hin.
    repeat (destruct Hin as [<- | Hin]; [reflexivity |]). destruct Hin. }
  pose proof (Hstored ATTENTION ltac:(cbn; tauto)) as H0.
  pose proof (Hstored NOTIFICATIONS ltac:(cbn; tauto)) as H1.
  pose proof (Hstored BATTERY ltac:(cbn; tauto)) as H2.
  pose proof (Hstored BACKLIGHT ltac:(cbn; tauto)) as H3.
  pose proof (Hstored BUTTONS ltac:(cbn; tauto)) as H4.
  destruct (well_formed_inv _ Hwf) as (s0 & s1 & s2 & s3 & s4 & Htable).
  rewrite Htable in *. cbn in H0, H1, H2, H3, H4.
  congruence.
Qed.

(** X21. After any history of calls, a call for ATTENTION, NOTIFICATIONS
    or BATTERY makes the white LED show the most important standing
    request: the latest ATTENTION request if it is lit, else the latest
    NOTIFICATIONS request if lit, else the latest BATTERY request if lit,
    and if none of the three is lit, the state just requested. *)
Theorem notification_led_shows_most_important_request :
  forall (cast : Z -> LightType) (init : HwLightState)
         (calls : list (Z * HwLightState)) (id : Z) (state : HwLightState),
    class_handler (cast id) = Some fn_handleNotification ->
    let current := current_request cast init (calls ++ [(id, state)]) in
    trace_of (setLightState cast id state
                (fst (replay cast calls (backends init))))
    = call fn_handleNotification
        (if isLit (current ATTENTION) then current ATTENTION
         else if isLit (current NOTIFICATIONS) then current NOTIFICATIONS
         else if isLit (current BATTERY) then current BATTERY
         else state).
Proof.
  intros cast init calls id state Hclass current.
  rewrite (setLightState_supported cast id state _ fn_handleNotification
             (replay_well_formed cast calls _ (well_formed_backends init))
             Hclass).
  cbn [trace_of snd]. rewrite table_after_history.
  unfold current, current_request. rewrite !last_request_app.
  unfold first_lit, competes.
  destruct (cast id); try discriminate Hclass; cbn;
    repeat match goal with
           | |- context [isLit ?s] => destruct (isLit s) eqn:?
           end; try reflexivity; congruence.
Qed.

Lemma notification_led_shows_most_important_request_witness :
  trace_of (setLightState hal_LightType_of_int 5 dark
              (fst (replay hal_LightType_of_int
                      [(3, solid 0xFF00FF00); (5, solid 0xFFFF0000);
                       (4, solid 0xFF0000FF)]
                      (backends dark))))
  = call fn_handleNotification (solid 0xFF0000FF).
Proof.
  apply (notification_led_shows_most_important_request hal_LightType_of_int
           dark
           [(3, solid 0xFF00FF00); (5, solid 0xFFFF0000);
            (4, solid 0xFF0000FF)] 5 dark).
  reflexivity.
Defined.
